(** * postgres-middleware: query runner, deadlock retry and transaction manager

    A shallow embedding of
      - [src/lib/query.ts]        ([executeDbQuery]),
      - [src/lib/transactions.ts] ([initializeDbTransaction] and its closures),
      - [src/index.ts]            ([initializeDatabase] and its closures),
    as state-passing functions over an abstract PostgreSQL driver, followed
    by the properties of the specification that concern them. *)

From Stdlib Require Import String List Arith Bool Lia.
From stdpp Require Import base list strings gmap.
Import ListNotations.

Set Warnings "-register-all".
Local Open Scope string_scope.
Local Open Scope list_scope.

(* ===================================================================== *)
(** ** JavaScript values and thrown errors *)
(* ===================================================================== *)

(** The [any] values that reach the driver as query parameters. *)
Inductive JsVal : Type :=
| JUndefined
| JNull
| JBool (b : bool)
| JNum (n : Z)
| JStr (s : string)
| JArr (elems : list JsVal).

(** [Array.isArray(v)]. *)
Definition isArray (v : JsVal) : bool :=
  match v with JArr _ => true | _ => false end.

(** [v.length] of an array. *)
Definition js_length (v : JsVal) : nat :=
  match v with JArr l => length l | _ => 0 end.

(** [v[i]]: reading past the end of an array yields [undefined]. *)
Definition js_index (v : JsVal) (i : nat) : JsVal :=
  match v with
  | JArr l => match l !! i with Some x => x | None => JUndefined end
  | _ => JUndefined
  end.

(** A default parameter [params = []] replaces an [undefined] argument. *)
Definition default_params (v : JsVal) : JsVal :=
  match v with JUndefined => JArr [] | _ => v end.

(** [sql: string | string[]]. *)
Inductive SqlArg : Type :=
| SqlOne (q : string)
| SqlMany (qs : list string).

(** [ExecuteDbQueryOptions]; the argument itself is optional. *)
Record ExecuteDbQueryOptions : Type := { parallel : bool }.

(** [options?.parallel] used as a condition. *)
Definition wants_parallel (o : option ExecuteDbQueryOptions) : bool :=
  match o with Some opts => parallel opts | None => false end.

(** What [instanceof] can tell about a thrown value: one of the two error
    classes of the package, or anything else (an error of the [pg] driver,
    a [TypeError], ...). *)
Inductive ErrorClass : Type :=
| DatabaseErrorC
| TransactionErrorC
| ForeignC.

Record JsError : Type := mkJsError {
  cls : ErrorClass;
  message : string;
  code : option string   (* [None] is an [undefined] code *)
}.

(** [`${error.code}`]. *)
Definition code_text (e : JsError) : string :=
  match code e with Some c => c | None => "undefined" end.

(** [error.code === s] and [error.code !== s]. *)
Definition code_is (e : JsError) (s : string) : bool :=
  match code e with Some c => String.eqb c s | None => false end.

(** A settled promise (or the outcome of a synchronous call). *)
Inductive Completion (A : Type) : Type :=
| Resolved (a : A)
| Rejected (e : JsError).
Arguments Resolved {A} a.
Arguments Rejected {A} e.

(* ===================================================================== *)
(** ** A state-and-exception monad for [async] functions *)
(* ===================================================================== *)

Definition M (St A : Type) : Type := St -> Completion A * St.

Definition ret {St A} (a : A) : M St A := fun s => (Resolved a, s).

Definition throw {St A} (e : JsError) : M St A := fun s => (Rejected e, s).

Definition bind {St A B} (m : M St A) (k : A -> M St B) : M St B :=
  fun s =>
    match m s with
    | (Resolved a, s') => k a s'
    | (Rejected e, s') => (Rejected e, s')
    end.

(** [try { m } catch (error) { h error }]. *)
Definition try_catch {St A} (m : M St A) (h : JsError -> M St A) : M St A :=
  fun s =>
    match m s with
    | (Resolved a, s') => (Resolved a, s')
    | (Rejected e, s') => h e s'
    end.

Notation "'await' x <- m ; k" := (bind m (fun x => k))
  (at level 10, x name, m at level 99, k at level 200).
Notation "m ;; k" := (bind m (fun _ => k))
  (at level 100, k at level 200, right associativity).

(* ===================================================================== *)
(** ** The PostgreSQL driver and the helpers outside the sources *)
(* ===================================================================== *)

(** The [pg] package: a pool, its clients and the server behind them.
    [Env] is everything outside the program (server, pool, clock, random
    source); every driver call reads and updates it. *)
Class PgDriver : Type := {
  Env : Type;
  PoolClient : Type;
  QueryResult : Type;
  (** the server's answer to one statement of a client *)
  pg_query : PoolClient -> string -> JsVal -> Env -> Completion QueryResult * Env;
  (** [pool.connect()] *)
  pool_connect : Env -> Completion PoolClient * Env;
  (** [client.release()] *)
  client_release : PoolClient -> Env -> Completion unit * Env;
  (** [pool.end()] *)
  pool_end : Env -> Completion unit * Env;
  (** the order in which the server settles [n] statements in flight *)
  completion_order : Env -> nat -> list nat
}.

(** [{ uuid, timestamp }] as returned by [generateRefNo]. *)
Record RefNo : Type := { ref_uuid : string; ref_timestamp : string }.

(** Parts of the package that the functions below import and whose files
    ([errors/error.ts], [helpers/ref.ts], the conflict test of
    [lib/deadlock.ts]) are not among the sources: they are parameters. *)
Class Helpers `{PgDriver} : Type := {
  (** code of a [DatabaseError] constructed without a code *)
  db_default_code : string;
  (** code of a [TransactionError] constructed without a code *)
  tx_default_code : string;
  (** [generateRefNo()] *)
  generateRefNo : Env -> RefNo * Env;
  (** does a failure carry the serialization/deadlock signature? *)
  is_conflict : JsError -> bool;
  (** [`${error}`] *)
  error_text : JsError -> string
}.

(** What the program can be observed to ask of the driver. *)
Inductive Event `{PgDriver} : Type :=
| EvConnect
| EvQuery (c : PoolClient) (sql : string) (params : JsVal)
| EvRelease (c : PoolClient)
| EvEnd.

Record World `{PgDriver} : Type := mkWorld {
  env : Env;
  events : list Event
}.

Arguments mkWorld {_} env events.
Arguments EvConnect {_}.
Arguments EvQuery {_} c sql params.
Arguments EvRelease {_} c.
Arguments EvEnd {_}.

Section Runtime.
Context `{Hlp : Helpers}.

(** [new DatabaseError(message, code)] *)
Definition DatabaseError (msg : string) (c : option string) : JsError :=
  mkJsError DatabaseErrorC msg (Some (default db_default_code c)).

(** [new TransactionError(message, code)] *)
Definition TransactionError (msg : string) (c : option string) : JsError :=
  mkJsError TransactionErrorC msg (Some (default tx_default_code c)).

(** [error instanceof DatabaseError || error instanceof TransactionError] *)
Definition is_db_or_tx (e : JsError) : bool :=
  match cls e with
  | DatabaseErrorC | TransactionErrorC => true
  | ForeignC => false
  end.

Definition no_client_message : string :=
  "Could'nt find a client connection. Make sure that you have initialized the client connection before proceeding to this method.".

(** Handing a statement to the client (what [client.query(...)] does
    before it returns its promise). *)
Definition dispatch (c : PoolClient) (sql : string) (params : JsVal)
  (w : World) : World :=
  mkWorld (env w) (events w ++ [EvQuery c sql params]).

(** The server settling a statement. *)
Definition settle (c : PoolClient) (sql : string) (params : JsVal)
  : M World QueryResult :=
  fun w => let (r, e') := pg_query c sql params (env w) in
           (r, mkWorld e' (events w)).

(** [await client.query(sql, params)] *)
Definition client_query (c : PoolClient) (sql : string) (params : JsVal)
  : M World QueryResult :=
  fun w => settle c sql params (dispatch c sql params w).

End Runtime.

(* ===================================================================== *)
(** ** lib/deadlock.ts *)
(* ===================================================================== *)

Module Deadlock.
Section Deadlock.
Context `{Hlp : Helpers}.
Context {St A : Type}.

(** One attempt, with [remaining] further attempts allowed after it. *)
Fixpoint attempt (remaining : nat) (unitOfWork : M St A) : M St A :=
  try_catch unitOfWork (fun error =>
    match remaining with
    | S n => if is_conflict error then attempt n unitOfWork else throw error
    | O => throw error
    end).

(** Modelled from the spec: [lib/deadlock.ts] is not among the sources.
    Section 4.1: the unit of work is invoked; a success is returned at
    once; a failure with the conflict signature is retried while attempts
    remain, up to [maxAttempts] attempts in total; any other failure, and
    the failure of the last attempt, is propagated unchanged.  The delay
    between two attempts is wall-clock time and leaves no trace here. *)
Definition manageDeadlocks (maxAttempts : nat) (unitOfWork : M St A)
  : M St A :=
  attempt (maxAttempts - 1) unitOfWork.

End Deadlock.
End Deadlock.

(* ===================================================================== *)
(** ** lib/query.ts *)
(* ===================================================================== *)

(** [QueryResult | QueryResult[]] *)
Inductive Outcome `{PgDriver} : Type :=
| Single (r : QueryResult)
| Many (rs : list QueryResult).
Arguments Single {_} r.
Arguments Many {_} rs.

Module Query.
Section Query.
Context `{Hlp : Helpers}.

(** The sequential branch:
    [for (let i = 0; i < sql.length; i++) {
       const result = await client.query(sql[i], params[i]);
       queryResult.push(result); }]
    with [rest] the statements from index [i] on. *)
Fixpoint seq_loop (client : PoolClient) (rest : list string) (i : nat)
  (params : JsVal) (queryResult : list QueryResult)
  : M World (list QueryResult) :=
  match rest with
  | [] => ret queryResult
  | q :: rest' =>
      await result <- client_query client q (js_index params i);
      seq_loop client rest' (S i) params (queryResult ++ [result])
  end.

(** [sql.map((query, index) => client.query(query, params[index]))]:
    the statements are handed to the client one after the other, in
    the order of [sql], before any of them is awaited. *)
Definition in_flight (sql : list string) (params : JsVal)
  : list (string * JsVal) :=
  imap (fun index query => (query, js_index params index)) sql.

Definition dispatch_all (client : PoolClient)
  (stmts : list (string * JsVal)) (w : World) : World :=
  fold_left (fun w' s => dispatch client (fst s) (snd s) w') stmts w.

(** Every statement in flight settles exactly once.  The driver proposes
    an order; indices it leaves out settle afterwards, indices it
    repeats or invents are ignored. *)
Definition settle_order (n : nat) (proposed : list nat) : list nat :=
  let known := remove_dups (filter (fun i => i < n) proposed) in
  known ++ filter (fun i => i ∉ known) (seq 0 n).

(** The statements settle in [order]; the trace records, per settled
    statement, its index in [sql] and its completion. *)
Fixpoint settle_all (client : PoolClient) (stmts : list (string * JsVal))
  (order : list nat) (w : World)
  : list (nat * Completion QueryResult) * World :=
  match order with
  | [] => ([], w)
  | i :: order' =>
      match stmts !! i with
      | Some (q, p) =>
          let (r, w1) := settle client q p w in
          let (trace, w2) := settle_all client stmts order' w1 in
          ((i, r) :: trace, w2)
      | None => settle_all client stmts order' w
      end
  end.

(** [Promise.all]: each fulfilment stores its value at the promise's own
    index; the first rejection observed rejects the whole. *)
Fixpoint collect (trace : list (nat * Completion QueryResult))
  (values : list (option QueryResult))
  : Completion (list (option QueryResult)) :=
  match trace with
  | [] => Resolved values
  | (i, Resolved r) :: trace' => collect trace' (<[i := Some r]> values)
  | (_, Rejected e) :: _ => Rejected e
  end.

Definition promise_all (n : nat)
  (trace : list (nat * Completion QueryResult))
  : Completion (list QueryResult) :=
  match collect trace (replicate n None) with
  | Resolved values => Resolved (omap id values)
  | Rejected e => Rejected e
  end.

(** [const promises = sql.map(...)]: every statement is handed to the
    client, then the server settles them in its own order.  Statements
    still in flight when one is rejected settle all the same. *)
Definition settle_in_flight (client : PoolClient)
  (stmts : list (string * JsVal)) (w : World)
  : list (nat * Completion QueryResult) * World :=
  let w1 := dispatch_all client stmts w in
  let order :=
    settle_order (length stmts)
      (completion_order (env w1) (length stmts)) in
  settle_all client stmts order w1.

(** The parallel branch: [queryResult = await Promise.all(promises)]. *)
Definition parallel_run (client : PoolClient) (sql : list string)
  (params : JsVal) : M World (list QueryResult) :=
  fun w =>
    let promises := in_flight sql params in
    let (trace, w2) := settle_in_flight client promises w in
    (promise_all (length promises) trace, w2).

(** The function handed to [manageDeadlocks]: one run of the runner.
    [client : option PoolClient]: [None] is a client that was never
    assigned; every [PoolClient] has a [query] member. *)
Definition runner (client : option PoolClient) (sql : SqlArg)
  (params : JsVal) (options : option ExecuteDbQueryOptions)
  : M World Outcome :=
  try_catch
    match client with
    | None => throw (DatabaseError no_client_message None)
    | Some c =>
        match sql with
        | SqlMany qs =>
            if negb (isArray params)
               || negb (Nat.eqb (length qs) (js_length params))
            then throw (DatabaseError
                          "Mismatched SQL queries and parameters." None)
            else if wants_parallel options
            then await rs <- parallel_run c qs params; ret (Many rs)
            else await rs <- seq_loop c qs 0 params []; ret (Many rs)
        | SqlOne q =>
            await result <- client_query c q params; ret (Single result)
        end
    end
    (fun error => throw error).

Definition executeDbQuery (client : option PoolClient) (sql : SqlArg)
  (params : JsVal) (options : option ExecuteDbQueryOptions)
  : M World Outcome :=
  Deadlock.manageDeadlocks 3
    (runner client sql (default_params params) options).

End Query.
End Query.

(* ===================================================================== *)
(** ** Closures: local variables next to the world *)
(* ===================================================================== *)

(** A closure runs in the world and can read and assign the variables
    [Vars] of the function that created it. *)
Definition in_world {Vars St A} (m : M St A) : M (Vars * St) A :=
  fun s => let (r, w') := m (snd s) in (r, (fst s, w')).

Definition read_vars {Vars St A} (k : Vars -> M (Vars * St) A)
  : M (Vars * St) A :=
  fun s => k (fst s) s.

Definition assign {Vars St} (f : Vars -> Vars) : M (Vars * St) unit :=
  fun s => (Resolved tt, (f (fst s), snd s)).

(* ===================================================================== *)
(** ** lib/transactions.ts *)
(* ===================================================================== *)

Module Transactions.

(** The variables the five closures share: the [client] argument of
    [initializeDbTransaction] and its locals [uuid] and [timestamp]
    ([None] while unassigned, that is [undefined]). *)
Record Tx `{PgDriver} : Type := mkTx {
  client : option PoolClient;
  uuid : option string;
  var_timestamp : option string
}.
Arguments mkTx {_} client uuid var_timestamp.

(** The object [retrieve] returns. *)
Record TransactionMetadata : Type := {
  connection : bool;
  referenceNo : option string;
  timestamp : option string
}.

Section Transactions.
Context `{Hlp : Helpers}.

Definition TxWorld : Type := Tx * World.

(** [systemGenerateReferenceNo()] *)
Definition systemGenerateReferenceNo : M World RefNo :=
  fun w => let (ref, e') := generateRefNo (env w) in
           (Resolved ref, mkWorld e' (events w)).

(** [await client.query("BEGIN")] and the like: no parameters, the
    result is dropped. *)
Definition command (c : PoolClient) (sql : string) : M World unit :=
  await _r <- client_query c sql JUndefined; ret tt.

Definition initializeDbTransaction (client : option PoolClient) : Tx :=
  mkTx client None None.

Definition init : M TxWorld unit :=
  try_catch
    (read_vars (fun v =>
       match client v with
       | None => throw (DatabaseError no_client_message None)
       | Some c => in_world (command c "BEGIN")
       end))
    (fun error =>
       if is_db_or_tx error
       then throw (TransactionError
                     ("Failed to initialize transaction: " ++ code_text error)
                     None)
       else throw error).

Definition query (sql : SqlArg) (params : JsVal)
  (options : option ExecuteDbQueryOptions) : M TxWorld Outcome :=
  try_catch
    (await queryResult <-
       read_vars (fun v =>
         in_world (Query.executeDbQuery (client v) sql
                     (default_params params) options));
     await ref <- in_world systemGenerateReferenceNo;
     assign (fun v => mkTx (client v) (uuid v) (Some (ref_timestamp ref)));;
     assign (fun v => mkTx (client v) (Some (ref_uuid ref)) (var_timestamp v));;
     ret queryResult)
    (fun error =>
       if is_db_or_tx error
       then throw (TransactionError
                     ("Failed to initialize transaction: " ++ code_text error)
                     None)
       else throw error).

Definition commit : M TxWorld unit :=
  try_catch
    (read_vars (fun v =>
       match client v with
       | None => throw (DatabaseError no_client_message None)
       | Some c => in_world (command c "COMMIT")
       end))
    (fun error =>
       if negb (code_is error "CONN_NOT_INIT")
       then throw (TransactionError
                     ("Failed to commit transaction: " ++ code_text error)
                     None)
       else throw (TransactionError (message error) (code error))).

Definition rollback : M TxWorld unit :=
  read_vars (fun v =>
    match client v with
    | Some c => in_world (command c "ROLLBACK")
    | None => ret tt
    end).

Definition retrieve (v : Tx) : TransactionMetadata :=
  {| connection := bool_decide (is_Some (client v));
     referenceNo := uuid v;
     timestamp := var_timestamp v |}.

End Transactions.
End Transactions.

(* ===================================================================== *)
(** ** index.ts *)
(* ===================================================================== *)

Module Index.

(** The local [client] of [initializeDatabase], unassigned until
    [initializeConnection] succeeds. *)
Record Session `{PgDriver} : Type := mkSession {
  client : option PoolClient
}.
Arguments mkSession {_} client.

Section Index.
Context `{Hlp : Helpers}.

Definition SessionWorld : Type := Session * World.

Definition connect : M World PoolClient :=
  fun w => let (r, e') := pool_connect (env w) in
           (r, mkWorld e' (events w ++ [EvConnect])).

Definition release (c : PoolClient) : M World unit :=
  fun w => let (r, e') := client_release c (env w) in
           (r, mkWorld e' (events w ++ [EvRelease c])).

Definition end_pool : M World unit :=
  fun w => let (r, e') := pool_end (env w) in
           (r, mkWorld e' (events w ++ [EvEnd])).

(** The session as [initializeDatabase] returns it. *)
Definition initializeDatabase : Session := mkSession None.

Definition initializeConnection : M SessionWorld unit :=
  try_catch
    (await c <- in_world connect;
     assign (fun _ => mkSession (Some c)))
    (fun error =>
       throw (DatabaseError
                ("Error initializing database. " ++ error_text error) None)).

Definition query (sql : string) (params : JsVal)
  (options : option ExecuteDbQueryOptions) : M SessionWorld Outcome :=
  read_vars (fun v =>
    in_world (Query.executeDbQuery (client v) (SqlOne sql)
                (default_params params) options)).

Definition transaction : M SessionWorld Transactions.Tx :=
  read_vars (fun v => ret (Transactions.initializeDbTransaction (client v))).

Definition releaseConnection : M SessionWorld unit :=
  try_catch
    (read_vars (fun v =>
       match client v with
       | None => throw (DatabaseError no_client_message None)
       | Some c => in_world (release c)
       end))
    (fun error =>
       if code_is error "CONN_NOT_INIT"
       then ret tt
       else throw (DatabaseError (message error) (code error))).

(** [pool] is an argument of [initializeDatabase] and is always there. *)
Definition terminate : M SessionWorld unit :=
  try_catch
    (in_world end_pool)
    (fun error =>
       throw (DatabaseError
                ("Failed to terminate database connection pool: "
                 ++ code_text error) None)).

End Index.
End Index.

(* ===================================================================== *)
(** ** Vocabulary of the properties *)
(* ===================================================================== *)

Section Vocabulary.
Context `{Hlp : Helpers}.

(** The event a statement leaves when it is handed to client [c]. *)
Definition query_event (c : PoolClient) (s : string * JsVal) : Event :=
  EvQuery c (fst s) (snd s).

(** [runs_ok c stmts e rs e']: executed one after the other from [e],
    each statement of [stmts] succeeds; [rs] are their results in order
    and [e'] is the environment after the last one. *)
Inductive runs_ok (c : PoolClient)
  : list (string * JsVal) -> Env -> list QueryResult -> Env -> Prop :=
| runs_ok_nil e : runs_ok c [] e [] e
| runs_ok_cons q p rest e r e1 rs e2 :
    pg_query c q p e = (Resolved r, e1) ->
    runs_ok c rest e1 rs e2 ->
    runs_ok c ((q, p) :: rest) e (r :: rs) e2.

(** Is a settled statement of a trace fulfilled? *)
Definition fulfilled (x : nat * Completion QueryResult) : Prop :=
  match snd x with Resolved _ => True | Rejected _ => False end.

(** A unit of work that counts its own invocations. *)
Definition counted {St A} (work : M St A) : M (St * nat) A :=
  fun s => let (r, s') := work (fst s) in (r, (s', S (snd s))).

(** [conflicts work j s s']: invoked [j] times in a row from [s], the
    unit of work fails each time with the conflict signature and leaves
    the state [s']. *)
Inductive conflicts {St A} (work : M St A) : nat -> St -> St -> Prop :=
| conflicts_none s : conflicts work 0 s s
| conflicts_more j s e s1 s' :
    work s = (Rejected e, s1) ->
    is_conflict e = true ->
    conflicts work j s1 s' ->
    conflicts work (S j) s s'.

(** The calls a caller can make on a transaction manager. *)
Inductive Call : Type :=
| CallInit
| CallQuery (sql : SqlArg) (params : JsVal)
    (options : option ExecuteDbQueryOptions)
| CallCommit
| CallRollback.

(** The state a call leaves behind, whether it resolves or rejects. *)
Definition after_call (s : Transactions.TxWorld) (c : Call)
  : Transactions.TxWorld :=
  match c with
  | CallInit => snd (Transactions.init s)
  | CallQuery sql params options =>
      snd (Transactions.query sql params options s)
  | CallCommit => snd (Transactions.commit s)
  | CallRollback => snd (Transactions.rollback s)
  end.

Definition after_calls (s : Transactions.TxWorld) (cs : list Call)
  : Transactions.TxWorld :=
  fold_left after_call cs s.

End Vocabulary.

(* ===================================================================== *)
(** ** index.ts: the middleware, [getPostgres] and [extractRows] *)
(* ===================================================================== *)

Module Exports.

(** The object [initializeDatabase] returns: closures over one [client]
    variable, with a [transaction] member when transactions are enabled. *)
Record DatabaseInstance `{PgDriver} : Type := mkInstance {
  session : Index.Session;
  has_transaction : bool
}.
Arguments mkInstance {_} session has_transaction.

(** The members every object inherits from [Object.prototype]. *)
Definition object_prototype : list string :=
  ["constructor"; "__defineGetter__"; "__defineSetter__"; "hasOwnProperty";
   "__lookupGetter__"; "__lookupSetter__"; "isPrototypeOf";
   "propertyIsEnumerable"; "toString"; "valueOf"; "__proto__";
   "toLocaleString"].

(** [req.tralse_db_postgres], an object literal used as a map from
    database names to instances.  Assigning to [__proto__] does not add a
    key: it makes the assigned instance the prototype of the object. *)
Record JsObject `{PgDriver} : Type := mkObject {
  own : gmap string DatabaseInstance;
  proto : option DatabaseInstance
}.
Arguments mkObject {_} own proto.

(** What [obj[name]] evaluates to. *)
Inductive Member `{PgDriver} : Type :=
| MInstance (i : DatabaseInstance)   (* an instance stored by the middleware *)
| MInherited                         (* an inherited member: truthy *)
| MUndefined.
Arguments MInstance {_} i.
Arguments MInherited {_}.
Arguments MUndefined {_}.

Record TralseRequest `{PgDriver} : Type := mkRequest {
  tralse_db_postgres : option JsObject   (* [None]: [undefined] *)
}.
Arguments mkRequest {_} tralse_db_postgres.

(** [res.status(s).json({ status, code, error })] *)
Record Response : Type := mkResponse {
  http_status : nat;
  body_status : nat;
  body_code : string;
  body_error : string
}.

(** One request on its way through the middleware chain. *)
Record Exchange `{PgDriver} : Type := mkExchange {
  req : TralseRequest;
  sent : list Response
}.
Arguments mkExchange {_} req sent.

(** [QueryResult<any>[]] of rows, or one array of rows per result. *)
Inductive Extracted (Rows : Type) : Type :=
| RowsOf (r : Rows)
| RowsEach (rs : list Rows).
Arguments RowsOf {Rows} r.
Arguments RowsEach {Rows} rs.

Section Exports.
Context `{Hlp : Helpers}.

(** The names of an instance's own members. *)
Definition members (i : DatabaseInstance) : list string :=
  if has_transaction i
  then ["initializeConnection"; "query"; "transaction"; "releaseConnection";
        "terminate"]
  else ["initializeConnection"; "query"; "releaseConnection"; "terminate"].

(** [{}] *)
Definition empty_object : JsObject := mkObject ∅ None.

(** [obj[name]]: [__proto__] is an accessor and answers with the
    prototype; any other name is looked up among the own keys, then along
    the prototype chain. *)
Definition read (obj : JsObject) (name : string) : Member :=
  if decide (name = "__proto__")
  then match proto obj with Some i => MInstance i | None => MInherited end
  else match own obj !! name with
       | Some i => MInstance i
       | None =>
           if bool_decide (name ∈ from_option members [] (proto obj))
              || bool_decide (name ∈ object_prototype)
           then MInherited
           else MUndefined
       end.

(** [obj[name] = i] *)
Definition write (obj : JsObject) (name : string) (i : DatabaseInstance)
  : JsObject :=
  if decide (name = "__proto__")
  then mkObject (own obj) (Some i)
  else mkObject (<[name := i]> (own obj)) (proto obj).

(** [initializeDatabase(req, pool, enableTransactions)]: nothing happens
    but the creation of the closures. *)
Definition initializeDatabase (enableTransactions : bool) : DatabaseInstance :=
  mkInstance Index.initializeDatabase enableTransactions.

(** Reading a property of [undefined]. *)
Definition TypeError (what : string) : JsError :=
  mkJsError ForeignC
    ("Cannot read properties of undefined (reading '" ++ what ++ "')") None.

Definition init_failed : Response :=
  {| http_status := 500; body_status := 500;
     body_code := "DATABASE_INIT_ERROR";
     body_error := "Error initializing database." |}.

(** The error of the [http] module when a header is set on a response
    that has gone out. *)
Definition headers_sent : JsError :=
  mkJsError ForeignC "Cannot set headers after they are sent to the client"
    (Some "ERR_HTTP_HEADERS_SENT").

(** [res.status(s).json(body)]: the response goes out, unless one went
    out on this request before: then setting its headers throws. *)
Definition respond (r : Response) : M (Exchange * World) unit :=
  fun s =>
    match sent (fst s) with
    | [] => (Resolved tt, (mkExchange (req (fst s)) [r], snd s))
    | _ :: _ => (Rejected headers_sent, s)
    end.

(** The function [TralsePostgreSQL(pool, dbName, enableTransactions)]
    returns, applied to a request; [enableTransactions] is [None] when the
    argument is left out.  [next] is the rest of the chain as far as it
    runs before [next()] returns: the call is not awaited. *)
Definition TralsePostgreSQL (dbName : string)
  (enableTransactions : option bool) (next : M (Exchange * World) unit)
  : M (Exchange * World) unit :=
  try_catch
    (assign (fun x =>
       mkExchange
         (mkRequest
            (Some (default empty_object (tralse_db_postgres (req x)))))
         (sent x));;
     let dbInstance := initializeDatabase (default true enableTransactions) in
     assign (fun x =>
       mkExchange
         (mkRequest
            (option_map (fun obj => write obj dbName dbInstance)
               (tralse_db_postgres (req x))))
         (sent x));;
     next)
    (fun error => respond init_failed).

Definition getPostgres (r : TralseRequest) (name : string)
  : Completion Member :=
  match tralse_db_postgres r with
  | None => Rejected (TypeError name)
  | Some obj =>
      match read obj name with
      | MUndefined =>
          Rejected (DatabaseError
                      ("Cannot find a database named " ++ name ++ ".") None)
      | m => Resolved m
      end
  end.

(** [extractRows]; [rows] is the [rows] member of a [QueryResult]. *)
Definition extractRows {Rows : Type} (rows : QueryResult -> Rows)
  (result : Outcome) : Extracted Rows :=
  match result with
  | Many rs => RowsEach (map rows rs)
  | Single r => RowsOf (rows r)
  end.

End Exports.
End Exports.

(* ===================================================================== *)
(** ** More vocabulary *)
(* ===================================================================== *)

Section MoreVocabulary.
Context `{Hlp : Helpers}.

(** The first rejection of a trace, in the order the statements settled. *)
Fixpoint first_rejection (trace : list (nat * Completion QueryResult))
  : option JsError :=
  match trace with
  | [] => None
  | (_, Rejected e) :: _ => Some e
  | (_, Resolved _) :: trace' => first_rejection trace'
  end.

(** [ev] is a statement handed to client [c]. *)
Definition query_to (c : PoolClient) (ev : Event) : Prop :=
  exists q p, ev = EvQuery c q p.

(** From [w] to [w'] the only events are statements handed to [c]. *)
Definition only_queries (c : PoolClient) (w w' : World) : Prop :=
  exists evs, events w' = events w ++ evs /\ Forall (query_to c) evs.

(** Does a call sequence contain a [query]? *)
Definition is_query (k : Call) : bool :=
  match k with CallQuery _ _ _ => true | _ => false end.

End MoreVocabulary.

(* ===================================================================== *)
(** ** A small concrete driver *)
(* ===================================================================== *)

(** A server that remembers the statements it has executed and rejects
    the statements listed in a script. *)
Module Demo.

Definition script : Type := list (string * JsError).

Fixpoint lookup_script (sc : script) (sql : string) : option JsError :=
  match sc with
  | [] => None
  | (q, e) :: sc' => if String.eqb q sql then Some e else lookup_script sc' sql
  end.

#[local] Instance driver (sc : script) : PgDriver := {|
  Env := list string;
  PoolClient := nat;
  QueryResult := string;
  pg_query := fun _ sql _ done =>
    match lookup_script sc sql with
    | Some e => (Rejected e, done)
    | None => (Resolved ("rows of " ++ sql)%string, done ++ [sql])
    end;
  pool_connect := fun done => (Resolved 0, done);
  client_release := fun _ done => (Resolved tt, done);
  pool_end := fun done => (Resolved tt, done);
  completion_order := fun _ n => rev (seq 0 n)
|}.

(** A reference number names the statements executed so far. *)
Definition ref_after (done : list string) : RefNo * list string :=
  ({| ref_uuid := "ref after " ++ String.concat "; " done;
      ref_timestamp := "time after " ++ String.concat "; " done |},
   done).

(** The default codes are those of the README. *)
#[local] Instance helpers (sc : script) : @Helpers (driver sc) :=
  @Build_Helpers (driver sc)
    "DB_ERR"
    "TRANSACTION_ERR"
    ref_after
    (fun e => code_is e "40P01" || code_is e "40001")
    message.

Definition world0 (sc : script) : @World (driver sc) :=
  @mkWorld (driver sc) (@nil string) [].

Definition deadlock : JsError :=
  mkJsError ForeignC "deadlock detected" (Some "40P01").

Definition unique_violation : JsError :=
  mkJsError ForeignC "duplicate key value violates unique constraint"
    (Some "23505").

Definition no_transaction : JsError :=
  mkJsError ForeignC "there is no transaction in progress" (Some "25P01").

Definition connection_lost : JsError :=
  mkJsError ForeignC "Connection terminated unexpectedly" None.

(** A server that accepts everything. *)
Definition healthy : script := [].

(** A server on which [BAD] violates a constraint, [COMMIT] finds no
    transaction and the connection is lost before [ROLLBACK]. *)
Definition failing : script :=
  [("BAD", unique_violation); ("COMMIT", no_transaction);
   ("ROLLBACK", connection_lost)].

Definition manager (sc : script) (c : option nat)
  : @Transactions.Tx (driver sc) :=
  @Transactions.initializeDbTransaction (driver sc) c.

Definition session (sc : script) : @Index.Session (driver sc) :=
  @Index.initializeDatabase (driver sc).

(** Units of work over a counter: one always hits a deadlock, one
    violates a constraint. *)
Definition always_deadlock : M nat unit :=
  fun s => (Rejected deadlock, S s).

Definition always_violation : M nat unit :=
  fun s => (Rejected unique_violation, S s).

(** A unit of work that hits a deadlock once and then violates a
    constraint. *)
Definition deadlock_then_violation : M nat unit :=
  fun s => match s with
           | 0 => (Rejected deadlock, 1)
           | _ => (Rejected unique_violation, S s)
           end.

(** [init(); query("S1"); query("S2")] on a healthy server. *)
Definition two_queries
  : Completion Outcome * @Transactions.TxWorld (driver healthy) :=
  (@Transactions.init (driver healthy) (helpers healthy) ;;
   @Transactions.query (driver healthy) (helpers healthy)
     (SqlOne "S1") JUndefined None ;;
   @Transactions.query (driver healthy) (helpers healthy)
     (SqlOne "S2") JUndefined None)
    (manager healthy (Some 0), world0 healthy).


(** A pool of [limit] clients, numbered in the order they are handed
    out; the environment is the number of clients handed out so far and
    the clients that are checked out. *)
Definition pool_exhausted : JsError :=
  mkJsError ForeignC "timeout exceeded when trying to connect" None.

Definition released_twice : JsError :=
  mkJsError ForeignC
    "Release called on client which has already been released to the pool."
    None.

#[local] Instance pool (limit : nat) : PgDriver := {|
  Env := nat * list nat;
  PoolClient := nat;
  QueryResult := string;
  pg_query := fun _ sql _ st => (Resolved ("rows of " ++ sql)%string, st);
  pool_connect := fun st =>
    if Nat.ltb (fst st) limit
    then (Resolved (fst st), (S (fst st), fst st :: snd st))
    else (Rejected pool_exhausted, st);
  client_release := fun c st =>
    if bool_decide (c ∈ snd st)
    then (Resolved tt, (fst st, filter (fun c' => c' <> c) (snd st)))
    else (Rejected released_twice, st);
  pool_end := fun st => (Resolved tt, st);
  completion_order := fun _ n => seq 0 n
|}.

Definition pool_ref (st : nat * list nat) : RefNo * (nat * list nat) :=
  ({| ref_uuid := "ref"; ref_timestamp := "time" |}, st).

#[local] Instance pool_helpers (limit : nat) : @Helpers (pool limit) :=
  @Build_Helpers (pool limit)
    "DB_ERR"
    "TRANSACTION_ERR"
    pool_ref
    (fun e => code_is e "40P01" || code_is e "40001")
    (fun e => "Error: " ++ message e)%string.

Definition pool_world (limit : nat) : @World (pool limit) :=
  @mkWorld (pool limit) (0, @nil nat) [].

(** A request that no middleware has touched. *)
Definition bare_exchange (sc : script) : @Exports.Exchange (driver sc) :=
  @Exports.mkExchange (driver sc) (@Exports.mkRequest (driver sc) None) [].

(** A request on which a handler has answered already. *)
Definition answered : Exports.Response :=
  {| Exports.http_status := 200; Exports.body_status := 200;
     Exports.body_code := "OK"; Exports.body_error := "none" |}.

Definition answered_exchange (sc : script) : @Exports.Exchange (driver sc) :=
  @Exports.mkExchange (driver sc) (@Exports.mkRequest (driver sc) None)
    [answered].

(** [init(); query("S1"); commit()] on a healthy server. *)
Definition one_statement_transaction
  : Completion unit * @Transactions.TxWorld (driver healthy) :=
  (@Transactions.init (driver healthy) (helpers healthy) ;;
   @Transactions.query (driver healthy) (helpers healthy)
     (SqlOne "S1") JUndefined None ;;
   @Transactions.commit (driver healthy) (helpers healthy))
    (manager healthy (Some 0), world0 healthy).

(** [initializeConnection(); query("A"); releaseConnection()] on a pool
    of one client. *)
Definition session_life
  : Completion unit * @Index.SessionWorld (pool 1) :=
  (@Index.initializeConnection (pool 1) (pool_helpers 1) ;;
   @Index.query (pool 1) (pool_helpers 1) "A" JUndefined None ;;
   @Index.releaseConnection (pool 1) (pool_helpers 1))
    (@Index.initializeDatabase (pool 1), pool_world 1).

(** [initializeConnection(); initializeConnection(); releaseConnection()]
    on a pool of two clients. *)
Definition connect_twice
  : Completion unit * @Index.SessionWorld (pool 2) :=
  (@Index.initializeConnection (pool 2) (pool_helpers 2) ;;
   @Index.initializeConnection (pool 2) (pool_helpers 2) ;;
   @Index.releaseConnection (pool 2) (pool_helpers 2))
    (@Index.initializeDatabase (pool 2), pool_world 2).

(** A session whose client 0 is checked out, and the same session after
    the client went back to the pool. *)
Definition connected : @Index.SessionWorld (pool 1) :=
  (@Index.mkSession (pool 1) (Some 0), @mkWorld (pool 1) (1, [0]) []).

Definition released : @Index.SessionWorld (pool 1) :=
  (@Index.mkSession (pool 1) (Some 0), @mkWorld (pool 1) (1, @nil nat) []).

(** The request after the middleware mounted under [main]. *)
Definition mounted_main : @Exports.Exchange (driver healthy) :=
  fst (snd (@Exports.TralsePostgreSQL (driver healthy) "main" None (ret tt)
              (bare_exchange healthy, world0 healthy))).
End Demo.

(* ===================================================================== *)
(** ** Properties of the transaction manager *)
(* ===================================================================== *)

#[local] Arguments String.append : simpl never.

Ltac unfold_monad :=
  unfold bind, ret, throw, try_catch, in_world, read_vars, assign in *.

Section TransactionFacts.
Context `{Hlp : Helpers}.
Import Transactions.

Implicit Types (t : Tx) (w : World) (s : TxWorld) (e : JsError).

(** A command is one call on the client; its completion is the
    server's. *)
Lemma command_run c sql w :
  command c sql w =
    (match fst (pg_query c sql JUndefined (env w)) with
     | Resolved _ => Resolved tt
     | Rejected e => Rejected e
     end,
     mkWorld (snd (pg_query c sql JUndefined (env w)))
             (events w ++ [EvQuery c sql JUndefined])).
Proof.
  unfold command, client_query, settle, dispatch. unfold_monad. simpl.
  destruct (pg_query c sql JUndefined (env w)) as [[r|e] e']; reflexivity.
Qed.

(** C1, as the code has it: without a client [rollback] does nothing and
    resolves; with a client it sends exactly one [ROLLBACK] and settles
    as that command settles, so a rejected [ROLLBACK] rejects
    [rollback] with the same error. *)
Theorem rollback_outcome t w :
  match client t with
  | None => rollback (t, w) = (Resolved tt, (t, w))
  | Some c =>
      rollback (t, w) =
        (match fst (pg_query c "ROLLBACK" JUndefined (env w)) with
         | Resolved _ => Resolved tt
         | Rejected e => Rejected e
         end,
         (t, mkWorld (snd (pg_query c "ROLLBACK" JUndefined (env w)))
                     (events w ++ [EvQuery c "ROLLBACK" JUndefined])))
  end.
Proof.
  unfold rollback. unfold_monad. simpl.
  destruct (client t) as [c|]; [|reflexivity].
  rewrite command_run. reflexivity.
Qed.

(** C8, as the code has it: what [rollback] does depends on the client
    given to [initializeDbTransaction], not on [init].  Without a client
    it resolves and the world is untouched; with a client [c], and
    [init] never called, it sends [ROLLBACK] to [c]. *)
Theorem rollback_without_init w :
  rollback (initializeDbTransaction None, w)
    = (Resolved tt, (initializeDbTransaction None, w))
  /\ forall c,
       events (snd (snd (rollback (initializeDbTransaction (Some c), w))))
         = events w ++ [EvQuery c "ROLLBACK" JUndefined].
Proof.
  split; [reflexivity|]. intros c.
  unfold rollback. unfold_monad. simpl. rewrite command_run. reflexivity.
Qed.

(** No call assigns [client]. *)
Lemma after_call_client s k : client (fst (after_call s k)) = client (fst s).
Proof.
  destruct s as [t w], k as [|sql params options| |]; simpl.
  - unfold init. unfold_monad. simpl.
    destruct (client t) as [c|] eqn:Hc; simpl.
    + rewrite command_run.
      destruct (fst (pg_query c "BEGIN" JUndefined (env w))); simpl;
        [exact Hc|]. destruct (is_db_or_tx e); exact Hc.
    + exact Hc.
  - unfold query. unfold_monad. simpl.
    destruct (Query.executeDbQuery _ _ _ _ _) as [[out|e] w1]; simpl.
    + unfold systemGenerateReferenceNo.
      destruct (generateRefNo (env w1)); reflexivity.
    + destruct (is_db_or_tx e); reflexivity.
  - unfold commit. unfold_monad. simpl.
    destruct (client t) as [c|] eqn:Hc; simpl.
    + rewrite command_run.
      destruct (fst (pg_query c "COMMIT" JUndefined (env w))); simpl;
        [exact Hc|]. destruct (negb _); exact Hc.
    + destruct (negb _); exact Hc.
  - unfold rollback. unfold_monad. simpl.
    destruct (client t) as [c|] eqn:Hc; simpl; [|exact Hc].
    rewrite command_run. exact Hc.
Qed.

(** C10: after any sequence of [init], [query], [commit] and [rollback]
    calls, whatever their outcomes, the [connection] field of
    [retrieve()] is [true] exactly when a client was given to
    [initializeDbTransaction]. *)
Theorem connection_fixed_at_construction
    (c : option PoolClient) w (calls : list Call) :
  connection
    (retrieve (fst (after_calls (initializeDbTransaction c, w) calls)))
  = bool_decide (is_Some c).
Proof.
  assert (Hinv : forall s,
             client (fst (after_calls s calls)) = client (fst s)).
  { unfold after_calls.
    induction calls as [|k calls IH]; intros s; simpl; [reflexivity|].
    rewrite IH. apply after_call_client. }
  unfold retrieve. simpl. rewrite Hinv. reflexivity.
Qed.

End TransactionFacts.

Section BoundaryFacts.
Context `{Hlp : Helpers}.
Import Transactions.

Implicit Types (t : Tx) (w : World) (e : JsError).

Lemma rewrap_class e prefix :
  let e2 := if is_db_or_tx e
            then TransactionError (prefix ++ code_text e) None
            else e in
  (is_db_or_tx e = true -> cls e2 = TransactionErrorC)
  /\ (is_db_or_tx e = false -> e2 = e).
Proof.
  simpl. destruct (is_db_or_tx e); split; intros; congruence || reflexivity.
Qed.

(** C2, as the code has it.  In [init] and in [query] a failure that is
    a [DatabaseError] or a [TransactionError] leaves as a new
    [TransactionError], and any other failure leaves unchanged.  In
    [commit] every failure, of whatever class, leaves as a new
    [TransactionError]; it keeps the message and the code of its cause
    when that code is [CONN_NOT_INIT]. *)
Theorem boundary_errors t w :
  (forall c e en,
      client t = Some c ->
      pg_query c "BEGIN" JUndefined (env w) = (Rejected e, en) ->
      exists e2, fst (init (t, w)) = Rejected e2
                 /\ (is_db_or_tx e = true -> cls e2 = TransactionErrorC)
                 /\ (is_db_or_tx e = false -> e2 = e))
  /\ (client t = None ->
      exists e2, init (t, w) = (Rejected e2, (t, w))
                 /\ cls e2 = TransactionErrorC)
  /\ (forall sql params options e w1,
        Query.executeDbQuery (client t) sql (default_params params)
          options w = (Rejected e, w1) ->
        exists e2, query sql params options (t, w) = (Rejected e2, (t, w1))
                   /\ (is_db_or_tx e = true -> cls e2 = TransactionErrorC)
                   /\ (is_db_or_tx e = false -> e2 = e))
  /\ (forall c e en,
        client t = Some c ->
        pg_query c "COMMIT" JUndefined (env w) = (Rejected e, en) ->
        exists e2, fst (commit (t, w)) = Rejected e2
                   /\ cls e2 = TransactionErrorC
                   /\ (code_is e "CONN_NOT_INIT" = true ->
                       message e2 = message e /\ code e2 = code e))
  /\ (client t = None ->
      exists e2, commit (t, w) = (Rejected e2, (t, w))
                 /\ cls e2 = TransactionErrorC).
Proof.
  repeat split.
  - intros c e en Hc Hq. unfold init. unfold_monad. simpl.
    rewrite Hc. simpl. rewrite command_run, Hq. simpl.
    exists (if is_db_or_tx e
            then TransactionError
                   ("Failed to initialize transaction: " ++ code_text e) None
            else e).
    split; [destruct (is_db_or_tx e); reflexivity|].
    apply (rewrap_class e "Failed to initialize transaction: ").
  - intros Hc. unfold init. unfold_monad. simpl. rewrite Hc. simpl.
    eexists. split; reflexivity.
  - intros sql params options e w1 Hq. unfold query. unfold_monad. simpl.
    rewrite Hq.
    exists (if is_db_or_tx e
            then TransactionError
                   ("Failed to initialize transaction: " ++ code_text e) None
            else e).
    split; [destruct (is_db_or_tx e); reflexivity|].
    apply (rewrap_class e "Failed to initialize transaction: ").
  - intros c e en Hc Hq. unfold commit. unfold_monad. simpl.
    rewrite Hc. simpl. rewrite command_run, Hq. simpl.
    destruct (code_is e "CONN_NOT_INIT") eqn:E; simpl; eexists;
      (split; [reflexivity|]); (split; [reflexivity|]).
    + intros _. simpl. split; [reflexivity|].
      unfold code_is in E. destruct (code e); [reflexivity|discriminate].
    + discriminate.
  - intros Hc. unfold commit. unfold_monad. simpl. rewrite Hc. simpl.
    destruct (negb _); eexists; split; reflexivity.
Qed.

(** C7: a [query()] that succeeds stores the reference number generated
    after it, replacing what was stored; a [query()] that fails, and
    [init], [commit] and [rollback], leave the stored values as they
    are; so after [init(); query(S1); query(S2)] the object [retrieve()]
    returns carries the reference and the timestamp generated after
    [S2]. *)
Theorem metadata_follows_last_query t w :
  (forall sql params options out w1 ref en,
      Query.executeDbQuery (client t) sql (default_params params)
        options w = (Resolved out, w1) ->
      generateRefNo (env w1) = (ref, en) ->
      query sql params options (t, w) =
        (Resolved out,
         (mkTx (client t) (Some (ref_uuid ref)) (Some (ref_timestamp ref)),
          mkWorld en (events w1))))
  /\ (forall sql params options e w1,
        Query.executeDbQuery (client t) sql (default_params params)
          options w = (Rejected e, w1) ->
        snd (query sql params options (t, w)) = (t, w1))
  /\ (fst (snd (init (t, w))) = t
      /\ fst (snd (commit (t, w))) = t
      /\ fst (snd (rollback (t, w))) = t)
  /\ (forall S1 p1 o1 S2 p2 o2 s1 out1 s2 out2 s3,
        init (t, w) = (Resolved tt, s1) ->
        query S1 p1 o1 s1 = (Resolved out1, s2) ->
        query S2 p2 o2 s2 = (Resolved out2, s3) ->
        exists w' ref,
          Query.executeDbQuery (client t) S2 (default_params p2) o2 (snd s2)
            = (Resolved out2, w')
          /\ generateRefNo (env w') = (ref, env (snd s3))
          /\ retrieve (fst s3) =
               {| connection := bool_decide (is_Some (client t));
                  referenceNo := Some (ref_uuid ref);
                  timestamp := Some (ref_timestamp ref) |}).
Proof.
  assert (Hok : forall t0 w0 sql params options out w1 ref en,
      Query.executeDbQuery (client t0) sql (default_params params)
        options w0 = (Resolved out, w1) ->
      generateRefNo (env w1) = (ref, en) ->
      query sql params options (t0, w0) =
        (Resolved out,
         (mkTx (client t0) (Some (ref_uuid ref)) (Some (ref_timestamp ref)),
          mkWorld en (events w1)))).
  { intros t0 w0 sql params options out w1 ref en Hq Hr.
    unfold query. unfold_monad. simpl. rewrite Hq. simpl.
    unfold systemGenerateReferenceNo. rewrite Hr. reflexivity. }
  assert (Hfail : forall t0 w0 sql params options e w1,
      Query.executeDbQuery (client t0) sql (default_params params)
        options w0 = (Rejected e, w1) ->
      snd (query sql params options (t0, w0)) = (t0, w1)).
  { intros t0 w0 sql params options e w1 Hq.
    unfold query. unfold_monad. simpl. rewrite Hq.
    destruct (is_db_or_tx e); reflexivity. }
  split; [apply Hok|]. split; [apply Hfail|]. split.
  - repeat split.
    + unfold init. unfold_monad. simpl.
      destruct (client t) as [c|]; simpl; [|reflexivity].
      rewrite command_run.
      destruct (fst (pg_query c "BEGIN" JUndefined (env w))); simpl;
        [reflexivity|]. destruct (is_db_or_tx e); reflexivity.
    + unfold commit. unfold_monad. simpl.
      destruct (client t) as [c|]; simpl.
      * rewrite command_run.
        destruct (fst (pg_query c "COMMIT" JUndefined (env w))); simpl;
          [reflexivity|]. destruct (negb _); reflexivity.
      * destruct (negb _); reflexivity.
    + unfold rollback. unfold_monad. simpl.
      destruct (client t) as [c|]; simpl; [|reflexivity].
      rewrite command_run. reflexivity.
  - intros S1 p1 o1 S2 p2 o2 s1 out1 s2 out2 s3 Hi H1 H2.
    pose proof (after_call_client (t, w) CallInit) as Ci.
    pose proof (after_call_client s1 (CallQuery S1 p1 o1)) as C1.
    simpl in Ci, C1. rewrite Hi in Ci. rewrite H1 in C1. simpl in Ci, C1.
    destruct s2 as [t2 w2]. simpl in *.
    destruct (Query.executeDbQuery (client t2) S2 (default_params p2) o2 w2)
      as [[out|e] w'] eqn:Hq.
    + destruct (generateRefNo (env w')) as [ref en] eqn:Hr.
      rewrite (Hok _ _ _ _ _ _ _ _ _ Hq Hr) in H2.
      injection H2 as <- <-. exists w', ref. simpl.
      rewrite <- Ci, <- C1. repeat split; assumption || reflexivity.
    + pose proof (Hfail _ _ _ _ _ _ _ Hq) as Hs.
      unfold query in H2. unfold_monad. simpl in H2. rewrite Hq in H2.
      destruct (is_db_or_tx e); discriminate.
Qed.

End BoundaryFacts.

(* ===================================================================== *)
(** ** Properties of the session *)
(* ===================================================================== *)

Section SessionFacts.
Context `{Hlp : Helpers}.
Import Index.

Implicit Types (v : Session) (w : World).

(** What [releaseConnection] does without a client hangs on one thing:
    the code that a [DatabaseError] built without a code gets. *)
Lemma release_without_client_cases v w :
  client v = None ->
  releaseConnection (v, w) =
    (if String.eqb db_default_code "CONN_NOT_INIT"
     then Resolved tt
     else Rejected (DatabaseError no_client_message None),
     (v, w)).
Proof.
  intros Hc. unfold releaseConnection. unfold_monad. simpl. rewrite Hc.
  unfold code_is. simpl.
  destruct (String.eqb db_default_code "CONN_NOT_INIT"); reflexivity.
Qed.

(** C9 on the code: unless a [DatabaseError] built without a code
    carries the code [CONN_NOT_INIT], [releaseConnection] on a session
    without a client rejects with a [DatabaseError]; nothing is asked of
    the pool. *)
Theorem release_without_client_rejects v w :
  client v = None ->
  db_default_code <> "CONN_NOT_INIT" ->
  releaseConnection (v, w) =
    (Rejected (DatabaseError no_client_message None), (v, w)).
Proof.
  intros Hc Hd. rewrite release_without_client_cases by exact Hc.
  apply String.eqb_neq in Hd. rewrite Hd. reflexivity.
Qed.

(** With a client, [releaseConnection] asks the pool once. *)
Lemma release_with_client v w c :
  client v = Some c ->
  events (snd (snd (releaseConnection (v, w)))) = events w ++ [EvRelease c].
Proof.
  intros Hc. unfold releaseConnection, release. unfold_monad. simpl.
  rewrite Hc. simpl.
  destruct (client_release c (env w)) as [[u|e] e']; simpl; [reflexivity|].
  destruct (code_is e "CONN_NOT_INIT"); reflexivity.
Qed.

End SessionFacts.

(* ===================================================================== *)
(** ** Properties of the retry loop *)
(* ===================================================================== *)

Section RetryFacts.
Context `{Hlp : Helpers}.
Context {St A : Type}.
Import Deadlock.

Implicit Types (work : M St A) (n : nat).

Lemma attempt_resolved work n s a s' :
  work s = (Resolved a, s') -> attempt n work s = (Resolved a, s').
Proof. intros Hw. destruct n; simpl; unfold try_catch; rewrite Hw; reflexivity. Qed.

Lemma attempt_retry work n s e s' :
  work s = (Rejected e, s') -> is_conflict e = true ->
  attempt (S n) work s = attempt n work s'.
Proof. intros Hw Hc. simpl. unfold try_catch. rewrite Hw, Hc. reflexivity. Qed.

Lemma attempt_last work s e s' :
  work s = (Rejected e, s') -> attempt 0 work s = (Rejected e, s').
Proof. intros Hw. simpl. unfold try_catch. rewrite Hw. reflexivity. Qed.

Lemma attempt_other work n s e s' :
  work s = (Rejected e, s') -> is_conflict e = false ->
  attempt n work s = (Rejected e, s').
Proof.
  intros Hw Hc. destruct n; simpl; unfold try_catch; rewrite Hw;
    [|rewrite Hc]; reflexivity.
Qed.

(** A unit of work that fails without changing the state fails the same
    way however often it is tried. *)
Lemma attempt_stuck work n s e :
  work s = (Rejected e, s) -> attempt n work s = (Rejected e, s).
Proof.
  intros Hw. induction n as [|n IH].
  - apply attempt_last, Hw.
  - destruct (is_conflict e) eqn:Hc.
    + rewrite (attempt_retry _ _ _ _ _ Hw Hc). exact IH.
    + apply attempt_other; assumption.
Qed.

End RetryFacts.

Section RetryBudget.
Context `{Hlp : Helpers}.
Context {St A : Type}.
Import Deadlock.

Implicit Types (work : M St A) (n : nat).

Lemma counted_run work s k :
  counted work (s, k) = (fst (work s), (snd (work s), S k)).
Proof. unfold counted. simpl. destruct (work s); reflexivity. Qed.

(** Conflicts use up attempts and nothing else. *)
Lemma attempt_after_conflicts work j s sj :
  conflicts work j s sj ->
  forall n k,
    attempt (j + n) (counted work) (s, k)
    = attempt n (counted work) (sj, k + j).
Proof.
  induction 1 as [s|j s e s1 s' Hw Hc _ IH]; intros n k.
  - simpl. rewrite Nat.add_0_r. reflexivity.
  - change (S j + n) with (S (j + n)).
    rewrite (attempt_retry _ (j + n) (s, k) e (s1, S k));
      [|rewrite counted_run, Hw; reflexivity | exact Hc].
    rewrite IH. replace (k + S j) with (S k + j) by lia. reflexivity.
Qed.

(** C3: with a budget of 3, a unit of work that fails with the conflict
    signature at every invocation is invoked three times and the
    failure of the third invocation is what the caller gets.  A failure
    without the conflict signature, at the first invocation or at any
    later one the budget allows (after [j] conflicts), is what the caller
    gets, and the unit of work is not invoked again: it was invoked
    [j + 1] times. *)
Theorem retry_budget_three work s :
  ((forall s0, exists e s', work s0 = (Rejected e, s')
                            /\ is_conflict e = true) ->
   exists e1 s1 e2 s2 e3 s3,
     work s = (Rejected e1, s1)
     /\ work s1 = (Rejected e2, s2)
     /\ work s2 = (Rejected e3, s3)
     /\ manageDeadlocks 3 (counted work) (s, 0) = (Rejected e3, (s3, 3)))
  /\ (forall budget j k sj e s',
        conflicts work j s sj ->
        j <= budget - 1 ->
        work sj = (Rejected e, s') ->
        is_conflict e = false ->
        manageDeadlocks budget (counted work) (s, k)
          = (Rejected e, (s', k + S j))).
Proof.
  split.
  - intros Hall.
    destruct (Hall s) as (e1 & s1 & H1 & C1).
    destruct (Hall s1) as (e2 & s2 & H2 & C2).
    destruct (Hall s2) as (e3 & s3 & H3 & C3).
    exists e1, s1, e2, s2, e3, s3. repeat split; try assumption.
    unfold manageDeadlocks. change (3 - 1) with 2.
    rewrite (attempt_retry _ 1 (s, 0) e1 (s1, 1));
      [|rewrite counted_run, H1; reflexivity | exact C1].
    rewrite (attempt_retry _ 0 (s1, 1) e2 (s2, 2));
      [|rewrite counted_run, H2; reflexivity | exact C2].
    apply attempt_last. rewrite counted_run, H3. reflexivity.
  - intros budget j k sj e s' Hconf Hj Hw Hc. unfold manageDeadlocks.
    replace (budget - 1) with (j + (budget - 1 - j)) by lia.
    rewrite (attempt_after_conflicts _ _ _ _ Hconf).
    replace (k + S j) with (S (k + j)) by lia.
    apply attempt_other; [|exact Hc].
    rewrite counted_run, Hw. reflexivity.
Qed.

End RetryBudget.

(* ===================================================================== *)
(** ** Properties of the query runner *)
(* ===================================================================== *)

Section RunnerFacts.
Context `{Hlp : Helpers}.
Import Query.

Implicit Types (c : PoolClient) (w : World) (qs : list string)
  (ps : list JsVal) (stmts : list (string * JsVal)).

Lemma runner_rethrows client sql params options w :
  runner client sql params options w =
    match client with
    | None => (Rejected (DatabaseError no_client_message None), w)
    | Some c =>
        match sql with
        | SqlMany qs =>
            if negb (isArray params)
               || negb (Nat.eqb (length qs) (js_length params))
            then (Rejected (DatabaseError
                              "Mismatched SQL queries and parameters." None),
                  w)
            else if wants_parallel options
            then (await rs <- parallel_run c qs params; ret (Many rs)) w
            else (await rs <- seq_loop c qs 0 params []; ret (Many rs)) w
        | SqlOne q =>
            (await result <- client_query c q params; ret (Single result)) w
        end
    end.
Proof.
  unfold runner, try_catch, throw.
  destruct client as [c|]; [|reflexivity].
  destruct sql as [q|qs].
  - destruct (bind _ _ w) as [[a|e] w']; reflexivity.
  - destruct (negb (isArray params) || _); [reflexivity|].
    destruct (wants_parallel options);
      destruct (bind _ _ w) as [[a|e] w']; reflexivity.
Qed.

(** C6: when [sql] is an array and [params] is not an array of the same
    length, [executeDbQuery] rejects with a [DatabaseError] and the
    world is as before: nothing was asked of the client.  With a client
    the error is the one for mismatched statements and parameters.
    ([params] is the parameter after its default [[]] is applied.) *)
Theorem mismatch_rejected client qs params options w :
  isArray (default_params params) = false
  \/ length qs <> js_length (default_params params) ->
  exists e,
    executeDbQuery client (SqlMany qs) params options w = (Rejected e, w)
    /\ cls e = DatabaseErrorC
    /\ (forall c, client = Some c ->
          e = DatabaseError "Mismatched SQL queries and parameters." None).
Proof.
  intros Hbad.
  assert (Hguard : negb (isArray (default_params params))
                   || negb (Nat.eqb (length qs)
                              (js_length (default_params params))) = true).
  { destruct Hbad as [Ha|Hl].
    - rewrite Ha. reflexivity.
    - apply Nat.eqb_neq in Hl. rewrite Hl. apply orb_true_r. }
  unfold executeDbQuery, Deadlock.manageDeadlocks.
  destruct client as [c|].
  - exists (DatabaseError "Mismatched SQL queries and parameters." None).
    split; [|split; [reflexivity|intros; reflexivity]].
    apply attempt_stuck. rewrite runner_rethrows, Hguard. reflexivity.
  - exists (DatabaseError no_client_message None).
    split; [|split; [reflexivity|intros; discriminate]].
    apply attempt_stuck. rewrite runner_rethrows. reflexivity.
Qed.

End RunnerFacts.

Section SequentialFacts.
Context `{Hlp : Helpers}.
Import Query.

Implicit Types (c : PoolClient) (w : World) (qs : list string)
  (ps : list JsVal) (stmts : list (string * JsVal)).

Lemma client_query_run c q p w :
  client_query c q p w =
    (fst (pg_query c q p (env w)),
     mkWorld (snd (pg_query c q p (env w))) (events w ++ [EvQuery c q p])).
Proof.
  unfold client_query, settle, dispatch. simpl.
  destruct (pg_query c q p (env w)); reflexivity.
Qed.

(** With as many parameter sets as statements, the statements in flight
    are the statements paired with their parameter sets. *)
Lemma in_flight_zip qs ps :
  length qs = length ps -> in_flight qs (JArr ps) = zip qs ps.
Proof.
  unfold in_flight. revert ps.
  induction qs as [|q qs IH]; intros [|p ps] Hlen; try discriminate;
    [reflexivity|].
  simpl. f_equal. apply IH. simpl in Hlen. lia.
Qed.

Lemma drop_head ps i :
  i < length ps ->
  drop i ps = js_index (JArr ps) i :: drop (S i) ps.
Proof.
  intros Hi. destruct (lookup_lt_is_Some_2 ps i Hi) as [p Hp].
  simpl. rewrite Hp. apply drop_S, Hp.
Qed.

Lemma seq_loop_ok c ps qs :
  forall i acc w rs en,
    length qs = length (drop i ps) ->
    runs_ok c (zip qs (drop i ps)) (env w) rs en ->
    seq_loop c qs i (JArr ps) acc w =
      (Resolved (acc ++ rs),
       mkWorld en (events w ++ map (query_event c) (zip qs (drop i ps)))).
Proof.
  induction qs as [|q qs IH]; intros i acc w rs en Hlen Hrun.
  - simpl in *. inversion Hrun; subst.
    rewrite !app_nil_r. destruct w; reflexivity.
  - assert (Hi : i < length ps).
    { rewrite length_drop in Hlen. simpl in Hlen. lia. }
    rewrite (drop_head _ _ Hi) in Hlen, Hrun |- *.
    simpl in Hlen. inversion Hrun as [|? ? ? ? r e1 rs' ? Hq Hrest]; subst.
    simpl. unfold bind. rewrite client_query_run, Hq. simpl.
    rewrite (IH (S i) _ _ rs' en); [|lia|exact Hrest].
    simpl. rewrite <- !app_assoc. reflexivity.
Qed.

Lemma seq_loop_fails c ps qs :
  forall i acc w pre q p post rs e1 e e2,
    length qs = length (drop i ps) ->
    zip qs (drop i ps) = pre ++ (q, p) :: post ->
    runs_ok c pre (env w) rs e1 ->
    pg_query c q p e1 = (Rejected e, e2) ->
    seq_loop c qs i (JArr ps) acc w =
      (Rejected e,
       mkWorld e2 (events w ++ map (query_event c) (pre ++ [(q, p)]))).
Proof.
  induction qs as [|q0 qs IH];
    intros i acc w pre q p post rs e1 e e2 Hlen Hzip Hrun Hq.
  - simpl in Hzip. destruct pre; discriminate.
  - assert (Hi : i < length ps).
    { rewrite length_drop in Hlen. simpl in Hlen. lia. }
    rewrite (drop_head _ _ Hi) in Hlen, Hzip.
    simpl in Hlen, Hzip. simpl. unfold bind. rewrite client_query_run.
    destruct pre as [|[q1 p1] pre].
    + simpl in Hzip. injection Hzip as -> -> _.
      inversion Hrun; subst. rewrite Hq. reflexivity.
    + simpl in Hzip. injection Hzip as <- <- Hzip.
      inversion Hrun as [|? ? ? ? r e1' rs' ? Hq1 Hrest]; subst.
      rewrite Hq1. simpl.
      rewrite (IH (S i) _ _ pre q p post rs' e1 e e2);
        [|lia|exact Hzip|exact Hrest|exact Hq].
      simpl. rewrite <- !app_assoc. reflexivity.
Qed.

Lemma guard_passes qs ps :
  length qs = length ps ->
  negb (isArray (JArr ps)) || negb (Nat.eqb (length qs) (js_length (JArr ps)))
  = false.
Proof. intros ->. simpl. rewrite Nat.eqb_refl. reflexivity. Qed.

(** C4: with [parallel] off, the statements are handed to the client
    one at a time in the order of [sql], each after the one before it
    has settled.  When the statements before statement [(q, p)] succeed
    and [(q, p)] is rejected with [e], the runner has asked the client
    for exactly those statements and [(q, p)], in order, for none of the
    later ones and for nothing else, and it rejects with [e] itself;
    so does [executeDbQuery] when [e] is no conflict. *)
Theorem sequential_run c qs ps options w :
  length qs = length ps ->
  wants_parallel options = false ->
  (forall rs en,
      runs_ok c (zip qs ps) (env w) rs en ->
      runner (Some c) (SqlMany qs) (JArr ps) options w =
        (Resolved (Many rs),
         mkWorld en (events w ++ map (query_event c) (zip qs ps))))
  /\ (forall pre q p post rs e1 e e2,
        zip qs ps = pre ++ (q, p) :: post ->
        runs_ok c pre (env w) rs e1 ->
        pg_query c q p e1 = (Rejected e, e2) ->
        let w' :=
          mkWorld e2 (events w ++ map (query_event c) (pre ++ [(q, p)])) in
        runner (Some c) (SqlMany qs) (JArr ps) options w = (Rejected e, w')
        /\ (is_conflict e = false ->
            executeDbQuery (Some c) (SqlMany qs) (JArr ps) options w
              = (Rejected e, w'))).
Proof.
  intros Hlen Hseq.
  assert (Hrun : runner (Some c) (SqlMany qs) (JArr ps) options w =
                 (await rs <- seq_loop c qs 0 (JArr ps) []; ret (Many rs)) w).
  { rewrite runner_rethrows, (guard_passes _ _ Hlen), Hseq. reflexivity. }
  split.
  - intros rs en Hok. rewrite Hrun. unfold bind.
    rewrite (seq_loop_ok c ps qs 0 [] w rs en); [reflexivity|exact Hlen|exact Hok].
  - intros pre q p post rs e1 e e2 Hzip Hok Hq w'.
    assert (Hfail : runner (Some c) (SqlMany qs) (JArr ps) options w
                    = (Rejected e, w')).
    { rewrite Hrun. unfold bind.
      rewrite (seq_loop_fails c ps qs 0 [] w pre q p post rs e1 e e2);
        [reflexivity|exact Hlen|exact Hzip|exact Hok|exact Hq]. }
    split; [exact Hfail|].
    intros Hc. unfold executeDbQuery, Deadlock.manageDeadlocks.
    apply attempt_other; [exact Hfail|exact Hc].
Qed.

End SequentialFacts.

Section ParallelFacts.
Context `{Hlp : Helpers}.
Import Query.

Implicit Types (c : PoolClient) (w : World) (qs : list string)
  (ps : list JsVal) (stmts : list (string * JsVal))
  (trace : list (nat * Completion QueryResult))
  (values : list (option QueryResult)).

Lemma dispatch_all_run c stmts :
  forall w, dispatch_all c stmts w
            = mkWorld (env w) (events w ++ map (query_event c) stmts).
Proof.
  unfold dispatch_all.
  induction stmts as [|s stmts IH]; intros w; simpl.
  - rewrite app_nil_r. destruct w; reflexivity.
  - rewrite IH. unfold dispatch. simpl. rewrite <- app_assoc. reflexivity.
Qed.

(** Whatever order the driver proposes, each of the [n] statements
    settles once. *)
Lemma settle_order_complete n proposed :
  NoDup (settle_order n proposed)
  /\ forall i, i ∈ settle_order n proposed <-> i < n.
Proof.
  unfold settle_order.
  set (known := remove_dups (filter (fun i => i < n) proposed)).
  assert (Hknown : forall i, i ∈ known -> i < n).
  { intros i Hi. unfold known in Hi.
    rewrite elem_of_remove_dups, list_elem_of_filter in Hi. tauto. }
  split.
  - apply NoDup_app. split; [apply NoDup_remove_dups|]. split.
    + intros i Hi Hin. apply list_elem_of_filter in Hin. tauto.
    + apply NoDup_filter, NoDup_seq.
  - intros i. rewrite elem_of_app, list_elem_of_filter, elem_of_seq.
    split.
    + intros [Hi|[_ Hi]]; [auto|lia].
    + intros Hi. destruct (decide (i ∈ known)); [left|right]; auto with lia.
Qed.

Lemma settle_all_indices c stmts order :
  forall w trace w2,
    (forall i, i ∈ order -> i < length stmts) ->
    settle_all c stmts order w = (trace, w2) ->
    trace.*1 = order /\ events w2 = events w.
Proof.
  induction order as [|i order IH]; intros w trace w2 Hlt Hrun; simpl in Hrun.
  - injection Hrun as <- <-. split; reflexivity.
  - destruct (lookup_lt_is_Some_2 stmts i) as [[q p] Hs].
    { apply Hlt. left. }
    rewrite Hs in Hrun. unfold settle in Hrun.
    destruct (pg_query c q p (env w)) as [r e1].
    destruct (settle_all c stmts order _) as [trace' w'] eqn:Hrest.
    injection Hrun as <- <-.
    destruct (IH _ _ _ (fun j Hj => Hlt j (list_elem_of_further _ _ _ Hj)) Hrest)
      as [Hidx Hev].
    split; [rewrite fmap_cons, Hidx; reflexivity|exact Hev].
Qed.

Lemma collect_fulfilled trace :
  forall values,
    Forall fulfilled trace ->
    NoDup (trace.*1) ->
    (forall i, i ∈ trace.*1 -> i < length values) ->
    exists values',
      collect trace values = Resolved values'
      /\ length values' = length values
      /\ (forall i r, (i, Resolved r) ∈ trace ->
                      values' !! i = Some (Some r))
      /\ (forall i, i ∉ trace.*1 -> values' !! i = values !! i).
Proof.
  induction trace as [|[i [r|e]] trace IH]; intros values HF ND Hlt.
  - exists values. split; [reflexivity|]. split; [reflexivity|].
    split; [|intros; reflexivity].
    intros i r Hin. inversion Hin.
  - apply Forall_cons in HF as [_ HF]. simpl in ND.
    apply NoDup_cons in ND as [Hfresh ND].
    destruct (IH (<[i := Some r]> values) HF ND) as (values' & Hc & Hl & Hin & Hout).
    { intros j Hj. rewrite length_insert. apply Hlt. simpl. right. exact Hj. }
    exists values'. simpl. split; [exact Hc|].
    split; [rewrite Hl; apply length_insert|]. split.
    + intros j r' Hj. apply elem_of_cons in Hj as [Heq|Hj].
      * injection Heq as -> ->. rewrite (Hout _ Hfresh).
        apply list_lookup_insert_eq, Hlt. simpl. left.
      * apply Hin, Hj.
    + intros j Hj. simpl in Hj. apply not_elem_of_cons in Hj as [Hne Hj].
      rewrite (Hout _ Hj). apply list_lookup_insert_ne. congruence.
  - apply Forall_cons in HF as [[] _].
Qed.

Lemma all_filled values :
  (forall i, i < length values -> exists r, values !! i = Some (Some r)) ->
  Some <$> omap id values = values.
Proof.
  induction values as [|v values IH]; intros Hall; [reflexivity|].
  destruct (Hall 0) as [r Hr]; [simpl; lia|]. simpl in Hr.
  injection Hr as ->. simpl. f_equal. apply IH.
  intros i Hi. apply (Hall (S i)). simpl. lia.
Qed.

(** [Promise.all] over fulfilled promises: one value per promise, each
    at the index of its promise. *)
Lemma promise_all_fulfilled n trace :
  Forall fulfilled trace ->
  NoDup (trace.*1) ->
  (forall i, i ∈ trace.*1 <-> i < n) ->
  exists rs,
    promise_all n trace = Resolved rs
    /\ length rs = n
    /\ forall i r, rs !! i = Some r <-> (i, Resolved r) ∈ trace.
Proof.
  intros HF ND Hidx.
  destruct (collect_fulfilled trace (replicate n None) HF ND)
    as (values' & Hc & Hl & Hin & _).
  { intros i Hi. rewrite length_replicate. apply Hidx, Hi. }
  rewrite length_replicate in Hl.
  assert (Hsettled : forall i, i < n -> exists r, (i, Resolved r) ∈ trace).
  { intros i Hi. apply Hidx in Hi.
    apply list_elem_of_fmap in Hi as ([j [r|e]] & -> & Hx).
    - exists r. exact Hx.
    - rewrite Forall_forall in HF. destruct (HF _ Hx). }
  assert (Hfull : Some <$> omap id values' = values').
  { apply all_filled. intros i Hi. rewrite Hl in Hi.
    destruct (Hsettled i Hi) as [r Hr]. exists r. apply Hin, Hr. }
  assert (Hlook : forall i r,
             omap id values' !! i = Some r <-> values' !! i = Some (Some r)).
  { intros i r. rewrite <- Hfull at 2. rewrite list_lookup_fmap.
    destruct (omap id values' !! i); simpl; split; congruence. }
  exists (omap id values'). unfold promise_all. rewrite Hc.
  split; [reflexivity|]. split.
  - rewrite <- Hl. rewrite <- Hfull at 2. rewrite length_fmap. reflexivity.
  - intros i r. rewrite Hlook. split; [|apply Hin].
    intros Hv. assert (Hi : i < n).
    { rewrite <- Hl. apply lookup_lt_is_Some_1. eauto. }
    destruct (Hsettled i Hi) as [r' Hr'].
    rewrite (Hin _ _ Hr') in Hv. injection Hv as <-. exact Hr'.
Qed.

(** The order in which the promises were fulfilled does not show in
    what [Promise.all] returns. *)
Lemma promise_all_order_free n trace1 trace2 :
  trace1 ≡ₚ trace2 ->
  Forall fulfilled trace1 ->
  NoDup (trace1.*1) ->
  (forall i, i ∈ trace1.*1 <-> i < n) ->
  promise_all n trace1 = promise_all n trace2.
Proof.
  intros HP HF ND Hidx.
  destruct (promise_all_fulfilled n trace1 HF ND Hidx) as (rs1 & -> & _ & H1).
  destruct (promise_all_fulfilled n trace2) as (rs2 & -> & _ & H2).
  - rewrite <- HP. exact HF.
  - rewrite <- HP. exact ND.
  - intros i. rewrite <- HP. apply Hidx.
  - f_equal. apply list_eq. intros i. apply option_eq. intros r.
    rewrite H1, H2, HP. reflexivity.
Qed.

(** C5: with [parallel] on and every statement fulfilled, in whatever
    order the server settles them, [executeDbQuery] returns one result
    per statement, and the result at index [i] is the one the statement
    at index [i] of [sql] was fulfilled with.  The statements were handed
    to the client in the order of [sql]. *)
Theorem parallel_results_in_input_order c qs ps options w trace w2 :
  length qs = length ps ->
  wants_parallel options = true ->
  settle_in_flight c (zip qs ps) w = (trace, w2) ->
  Forall fulfilled trace ->
  exists rs,
    executeDbQuery (Some c) (SqlMany qs) (JArr ps) options w
      = (Resolved (Many rs), w2)
    /\ length rs = length qs
    /\ (forall i r, rs !! i = Some r <-> (i, Resolved r) ∈ trace)
    /\ events w2 = events w ++ map (query_event c) (zip qs ps).
Proof.
  intros Hlen Hpar Hrun HF.
  assert (Hn : length (zip qs ps) = length qs).
  { rewrite length_zip. lia. }
  destruct (settle_order_complete (length (zip qs ps))
              (completion_order
                 (env (dispatch_all c (zip qs ps) w)) (length (zip qs ps))))
    as [ND Hidx].
  unfold settle_in_flight in Hrun.
  destruct (settle_all_indices _ _ _ _ _ _ (fun i Hi => proj1 (Hidx i) Hi) Hrun)
    as [Htr Hev].
  destruct (promise_all_fulfilled (length (zip qs ps)) trace HF) as (rs & Hp & Hl & Hat).
  { rewrite Htr. exact ND. }
  { intros i. rewrite Htr. apply Hidx. }
  exists rs. split; [|split; [lia|split; [exact Hat|]]].
  - unfold executeDbQuery, Deadlock.manageDeadlocks.
    apply attempt_resolved. simpl default_params.
    rewrite runner_rethrows, (guard_passes _ _ Hlen), Hpar.
    unfold bind, parallel_run. rewrite (in_flight_zip _ _ Hlen).
    unfold settle_in_flight. rewrite Hrun, Hp. reflexivity.
  - rewrite Hev, dispatch_all_run. reflexivity.
Qed.

End ParallelFacts.

(* ===================================================================== *)
(** ** Worked examples on the concrete driver *)
(* ===================================================================== *)

Section Examples.
Import Demo.

(** C1 does not hold as stated: a client is bound, the connection is
    lost, [ROLLBACK] is rejected, and so is [rollback()]. *)
Lemma rollback_can_reject :
  @Transactions.rollback (driver failing) (manager failing (Some 0), world0 failing)
    = (Rejected connection_lost,
       (manager failing (Some 0),
        @mkWorld (driver failing) (@nil string)
          [EvQuery (0 : @PoolClient (driver failing)) "ROLLBACK" JUndefined]))
  /\ forall s', @Transactions.rollback (driver failing)
                  (manager failing (Some 0), world0 failing)
                <> (Resolved tt, s').
Proof. split; [reflexivity|]. intros s'. vm_compute. discriminate. Qed.

(** C2 does not hold as stated: [COMMIT] is rejected by the server with
    an error that is neither a [DatabaseError] nor a
    [TransactionError], and [commit()] rejects with a new
    [TransactionError], not with that error. *)
Lemma commit_wraps_foreign_error :
  @pg_query (driver failing) 0 "COMMIT" JUndefined []
    = (Rejected no_transaction, [])
  /\ is_db_or_tx no_transaction = false
  /\ fst (@Transactions.commit (driver failing) (helpers failing)
            (manager failing (Some 0), world0 failing))
     = Rejected (mkJsError TransactionErrorC
                   "Failed to commit transaction: 25P01"
                   (Some "TRANSACTION_ERR"))
  /\ fst (@Transactions.commit (driver failing) (helpers failing)
            (manager failing (Some 0), world0 failing))
     <> Rejected no_transaction.
Proof. repeat split; try reflexivity. vm_compute. discriminate. Qed.

(** What [init] makes of a missing client: the code of the cause is in
    the text of the new error, its message is not. *)
Example init_without_client :
  fst (@Transactions.init (driver healthy) (helpers healthy)
         (manager healthy None, world0 healthy))
  = Rejected (mkJsError TransactionErrorC
                "Failed to initialize transaction: DB_ERR"
                (Some "TRANSACTION_ERR")).
Proof. reflexivity. Qed.

(** C8 does not hold as stated: a session connects, hands its client
    to a manager, [init()] is never called, and [rollback()] sends
    [ROLLBACK] to the client. *)
Lemma rollback_before_init_sends_rollback :
  @Transactions.rollback (driver healthy)
    (manager healthy (Some 0), world0 healthy)
    = (Resolved tt,
       (manager healthy (Some 0),
        @mkWorld (driver healthy) ["ROLLBACK"]
          [EvQuery (0 : @PoolClient (driver healthy)) "ROLLBACK" JUndefined]))
  /\ events (snd (snd (@Transactions.rollback (driver healthy)
                         (manager healthy (Some 0), world0 healthy))))
     <> events (world0 healthy).
Proof. split; [reflexivity|]. vm_compute. discriminate. Qed.

(** The manager of the example above is the one a connected session
    hands out. *)
Example session_manager :
  let s1 := snd (@Index.initializeConnection (driver healthy)
                   (helpers healthy) (session healthy, world0 healthy)) in
  fst (@Index.transaction (driver healthy) s1)
    = Resolved (manager healthy (Some 0)).
Proof. reflexivity. Qed.

(** C9 on the README's default code [DB_ERR]: a session that never
    connected, [releaseConnection()] rejects. *)
Lemma release_without_client_witness :
  @Index.releaseConnection (driver healthy) (helpers healthy)
    (session healthy, world0 healthy)
  = (Rejected (mkJsError DatabaseErrorC no_client_message (Some "DB_ERR")),
     (session healthy, world0 healthy)).
Proof.
  apply (@release_without_client_rejects (driver healthy) (helpers healthy)
           (session healthy) (world0 healthy)).
  - reflexivity.
  - simpl. discriminate.
Defined.

Lemma boundary_errors_witness :
  exists e2,
    fst (@Transactions.commit (driver failing) (helpers failing)
           (manager failing (Some 0), world0 failing)) = Rejected e2
    /\ cls e2 = TransactionErrorC
    /\ (code_is no_transaction "CONN_NOT_INIT" = true ->
        message e2 = message no_transaction
        /\ code e2 = code no_transaction).
Proof.
  destruct (@boundary_errors (driver failing) (helpers failing)
              (manager failing (Some 0)) (world0 failing))
    as (_ & _ & _ & Hcommit & _).
  apply (Hcommit 0 no_transaction (@nil string)); reflexivity.
Defined.

Lemma metadata_follows_last_query_witness :
  Transactions.retrieve (fst (snd two_queries))
  = {| Transactions.connection := true;
       Transactions.referenceNo := Some "ref after BEGIN; S1; S2";
       Transactions.timestamp := Some "time after BEGIN; S1; S2" |}.
Proof.
  destruct (@metadata_follows_last_query (driver healthy) (helpers healthy)
              (manager healthy (Some 0)) (world0 healthy))
    as (_ & _ & _ & Hscenario).
  destruct (Hscenario (SqlOne "S1") JUndefined None
              (SqlOne "S2") JUndefined None
              _ _ _ _ _ eq_refl eq_refl eq_refl)
    as (w' & ref & Hq & Hr & Hm).
  etransitivity; [exact Hm|].
  vm_compute in Hq. injection Hq as <-.
  vm_compute in Hr. injection Hr as <-. reflexivity.
Defined.

Lemma retry_budget_three_witness :
  (exists e1 s1 e2 s2 e3 s3,
      always_deadlock 0 = (Rejected e1, s1)
      /\ always_deadlock s1 = (Rejected e2, s2)
      /\ always_deadlock s2 = (Rejected e3, s3)
      /\ @Deadlock.manageDeadlocks (driver healthy) (helpers healthy) _ _
           3 (counted always_deadlock) (0, 0) = (Rejected e3, (s3, 3)))
  /\ @Deadlock.manageDeadlocks (driver healthy) (helpers healthy) _ _
       3 (counted always_violation) (0, 0)
     = (Rejected unique_violation, (1, 1))
  /\ @Deadlock.manageDeadlocks (driver healthy) (helpers healthy) _ _
       3 (counted deadlock_then_violation) (0, 0)
     = (Rejected unique_violation, (2, 2)).
Proof.
  split; [|split].
  - apply (proj1 (@retry_budget_three (driver healthy) (helpers healthy)
                    nat unit always_deadlock 0)).
    intros s0. exists deadlock, (S s0). split; reflexivity.
  - apply (proj2 (@retry_budget_three (driver healthy) (helpers healthy)
                    nat unit always_violation 0) 3 0 0 0).
    + apply (@conflicts_none (driver healthy) (helpers healthy)).
    + simpl. lia.
    + reflexivity.
    + reflexivity.
  - apply (proj2 (@retry_budget_three (driver healthy) (helpers healthy)
                    nat unit deadlock_then_violation 0) 3 1 0 1).
    + apply (@conflicts_more (driver healthy) (helpers healthy)
               nat unit deadlock_then_violation 0 0 deadlock 1 1);
        [reflexivity|reflexivity|].
      apply (@conflicts_none (driver healthy) (helpers healthy)).
    + simpl. lia.
    + reflexivity.
    + reflexivity.
Defined.

Lemma sequential_run_witness :
  @Query.runner (driver failing) (helpers failing) (Some 0)
    (SqlMany ["A"; "BAD"; "C"])
    (JArr [JArr []; JArr [JNum 1]; JArr []]) None (world0 failing)
  = (Rejected unique_violation,
     @mkWorld (driver failing) ["A"]
       [EvQuery (0 : @PoolClient (driver failing)) "A" (JArr []);
        EvQuery (0 : @PoolClient (driver failing)) "BAD" (JArr [JNum 1])]).
Proof.
  destruct (@sequential_run (driver failing) (helpers failing) 0
              ["A"; "BAD"; "C"] [JArr []; JArr [JNum 1]; JArr []]
              None (world0 failing) eq_refl eq_refl) as [_ Hfail].
  assert (Hok : @runs_ok (driver failing) 0 [("A", JArr [])] []
                  ["rows of A"] ["A"]).
  { eapply (@runs_ok_cons (driver failing)); [reflexivity|].
    apply (@runs_ok_nil (driver failing)). }
  exact (proj1 (Hfail [("A", JArr [])] "BAD" (JArr [JNum 1])
                  [("C", JArr [])] ["rows of A"] ["A"] unique_violation
                  ["A"] eq_refl Hok eq_refl)).
Defined.

Lemma parallel_results_witness :
  exists rs,
    @Query.executeDbQuery (driver healthy) (helpers healthy) (Some 0)
      (SqlMany ["A"; "B"]) (JArr [JArr []; JArr [JNum 1]])
      (Some {| parallel := true |}) (world0 healthy)
    = (Resolved (Many rs),
       @mkWorld (driver healthy) ["B"; "A"]
         [EvQuery (0 : @PoolClient (driver healthy)) "A" (JArr []);
          EvQuery (0 : @PoolClient (driver healthy)) "B" (JArr [JNum 1])])
    /\ length rs = 2
    /\ rs !! 0 = Some ("rows of A" : @QueryResult (driver healthy))
    /\ rs !! 1 = Some ("rows of B" : @QueryResult (driver healthy)).
Proof.
  destruct (@parallel_results_in_input_order
              (driver healthy) (helpers healthy) 0
              ["A"; "B"] [JArr []; JArr [JNum 1]]
              (Some {| parallel := true |}) (world0 healthy)
              [(1, Resolved "rows of B"); (0, Resolved "rows of A")]
              (@mkWorld (driver healthy) ["B"; "A"]
                 [EvQuery (0 : @PoolClient (driver healthy)) "A" (JArr []);
                  EvQuery (0 : @PoolClient (driver healthy)) "B"
                    (JArr [JNum 1])])
              eq_refl eq_refl eq_refl)
    as (rs & Hrun & Hlen & Hat & _).
  - repeat constructor.
  - exists rs. split; [exact Hrun|]. split; [exact Hlen|].
    split; apply Hat.
    + right. left.
    + left.
Defined.

Lemma mismatch_rejected_witness :
  exists e,
    @Query.executeDbQuery (driver healthy) (helpers healthy) (Some 0)
      (SqlMany ["A"; "B"]) (JArr [JArr []]) None (world0 healthy)
    = (Rejected e, world0 healthy)
    /\ cls e = DatabaseErrorC
    /\ (forall c, Some 0 = Some c ->
          e = @DatabaseError (driver healthy) (helpers healthy)
                "Mismatched SQL queries and parameters." None).
Proof.
  apply (@mismatch_rejected (driver healthy) (helpers healthy) (Some 0)
           ["A"; "B"] (JArr [JArr []]) None (world0 healthy)).
  right. simpl. lia.
Defined.

End Examples.

(* ===================================================================== *)
(** ** Further properties of the query runner *)
(* ===================================================================== *)

Section RetryInvariants.
Context `{Hlp : Helpers}.
Context {St A : Type}.
Import Deadlock.

Implicit Types (work : M St A) (n : nat).

(** What every invocation of the unit of work preserves, the retry loop
    preserves. *)
Lemma attempt_preserves (R : St -> St -> Prop) work n :
  (forall s1 s2 s3, R s1 s2 -> R s2 s3 -> R s1 s3) ->
  (forall s r s', work s = (r, s') -> R s s') ->
  forall s r s', attempt n work s = (r, s') -> R s s'.
Proof.
  intros Htrans Hstep. induction n as [|n IH]; intros s r s' Hrun;
    simpl in Hrun; unfold try_catch in Hrun;
    destruct (work s) as [[a|e] s1] eqn:Hw.
  - injection Hrun as <- <-. eapply Hstep, Hw.
  - injection Hrun as <- <-. eapply Hstep, Hw.
  - injection Hrun as <- <-. eapply Hstep, Hw.
  - destruct (is_conflict e).
    + eapply Htrans; [eapply Hstep, Hw|eapply IH, Hrun].
    + injection Hrun as <- <-. eapply Hstep, Hw.
Qed.

(** A result of the retry loop is the result of one invocation. *)
Lemma attempt_resolved_inv work n :
  forall s a s', attempt n work s = (Resolved a, s') ->
                 exists s0, work s0 = (Resolved a, s').
Proof.
  induction n as [|n IH]; intros s a s' Hrun;
    simpl in Hrun; unfold try_catch in Hrun;
    destruct (work s) as [[a0|e] s1] eqn:Hw.
  - injection Hrun as <- <-. eauto.
  - discriminate.
  - injection Hrun as <- <-. eauto.
  - destruct (is_conflict e); [eapply IH, Hrun|discriminate].
Qed.

End RetryInvariants.

Section RunnerEdges.
Context `{Hlp : Helpers}.
Import Query.

Implicit Types (c : PoolClient) (w : World) (qs : list string)
  (ps : list JsVal) (stmts : list (string * JsVal))
  (trace : list (nat * Completion QueryResult)).


(** X2: without a client every request is rejected with the
    no-connection [DatabaseError] before anything else is looked at, and
    nothing happens. *)
Theorem no_client_rejected sql params options w :
  executeDbQuery None sql params options w
    = (Rejected (DatabaseError no_client_message None), w).
Proof.
  unfold executeDbQuery, Deadlock.manageDeadlocks.
  apply attempt_stuck. rewrite runner_rethrows. reflexivity.
Qed.

Lemma filter_below_zero (l : list nat) : filter (fun i => i < 0) l = [].
Proof.
  induction l as [|x l IH]; [reflexivity|].
  rewrite filter_cons. destruct (decide (x < 0)); [lia|exact IH].
Qed.

(** X3: an empty array of statements with an empty (or omitted) array of
    parameters succeeds with an empty array of results, in either mode,
    and nothing is asked of the client. *)
Theorem empty_request c params options w :
  default_params params = JArr [] ->
  executeDbQuery (Some c) (SqlMany []) params options w
    = (Resolved (Many []), w).
Proof.
  intros Hp. unfold executeDbQuery, Deadlock.manageDeadlocks.
  apply attempt_resolved. rewrite runner_rethrows, Hp. simpl.
  destruct (wants_parallel options); unfold bind; simpl.
  - unfold parallel_run, settle_in_flight, settle_order. simpl.
    rewrite filter_below_zero. simpl. destruct w; reflexivity.
  - reflexivity.
Qed.

Lemma settle_all_events c stmts order :
  forall w trace w2,
    settle_all c stmts order w = (trace, w2) -> events w2 = events w.
Proof.
  induction order as [|i order IH]; intros w trace w2 Hrun; simpl in Hrun.
  - injection Hrun as <- <-. reflexivity.
  - destruct (stmts !! i) as [[q p]|]; [|eapply IH, Hrun].
    unfold settle in Hrun.
    destruct (pg_query c q p (env w)) as [r e1].
    destruct (settle_all c stmts order _) as [trace' w'] eqn:Hrest.
    injection Hrun as <- <-. apply (IH _ _ _ Hrest).
Qed.

Lemma collect_outcome trace :
  forall values,
    match first_rejection trace with
    | Some e => collect trace values = Rejected e
    | None => exists values', collect trace values = Resolved values'
    end.
Proof.
  induction trace as [|[i [r|e]] trace IH]; intros values; simpl.
  - eauto.
  - apply IH.
  - reflexivity.
Qed.

(** X4: with [parallel] on, every statement is handed to the client, in
    the order of [sql], and every one of them settles, also when one is
    rejected; what [runner] rejects with is the first rejection in the
    order of settling. *)
Theorem parallel_failure c qs ps options w trace w2 :
  length qs = length ps ->
  wants_parallel options = true ->
  settle_in_flight c (zip qs ps) w = (trace, w2) ->
  events w2 = events w ++ map (query_event c) (zip qs ps)
  /\ trace.*1 ≡ₚ seq 0 (length qs)
  /\ forall e, first_rejection trace = Some e ->
               runner (Some c) (SqlMany qs) (JArr ps) options w
                 = (Rejected e, w2).
Proof.
  intros Hlen Hpar Hrun.
  assert (Hn : length (zip qs ps) = length qs).
  { rewrite length_zip. lia. }
  destruct (settle_order_complete (length (zip qs ps))
              (completion_order
                 (env (dispatch_all c (zip qs ps) w)) (length (zip qs ps))))
    as [ND Hidx].
  pose proof Hrun as Hrun'. unfold settle_in_flight in Hrun'.
  destruct (settle_all_indices _ _ _ _ _ _ (fun i Hi => proj1 (Hidx i) Hi) Hrun')
    as [Htr Hev].
  split; [rewrite Hev, dispatch_all_run; reflexivity|]. split.
  - rewrite Htr. apply NoDup_Permutation; [exact ND|apply NoDup_seq|].
    intros i. rewrite Hidx, elem_of_seq, Hn. lia.
  - intros e He. rewrite runner_rethrows, (guard_passes _ _ Hlen), Hpar.
    unfold bind, parallel_run. rewrite (in_flight_zip _ _ Hlen), Hrun.
    unfold promise_all.
    pose proof (collect_outcome trace (replicate (length (zip qs ps)) None)) as Hc.
    rewrite He in Hc. rewrite Hc. reflexivity.
Qed.

Lemma seq_loop_length c params rest :
  forall i acc w rs w',
    seq_loop c rest i params acc w = (Resolved rs, w') ->
    length rs = length acc + length rest.
Proof.
  induction rest as [|q rest IH]; intros i acc w rs w' Hrun; simpl in Hrun.
  - injection Hrun as <- <-. simpl. lia.
  - unfold bind in Hrun.
    destruct (client_query c q (js_index params i) w) as [[r|e] w1];
      [|discriminate].
    apply IH in Hrun. rewrite length_app in Hrun. simpl in *. lia.
Qed.

Lemma collect_resolved_fulfilled trace :
  forall values values',
    collect trace values = Resolved values' -> Forall fulfilled trace.
Proof.
  induction trace as [|[i [r|e]] trace IH]; intros values values' Hc;
    simpl in Hc.
  - constructor.
  - constructor; [exact I|]. eapply IH, Hc.
  - discriminate.
Qed.

Lemma parallel_run_length c qs params w rs w' :
  parallel_run c qs params w = (Resolved rs, w') -> length rs = length qs.
Proof.
  unfold parallel_run. intros Hrun.
  destruct (settle_in_flight c (in_flight qs params) w) as [trace w2] eqn:Hs.
  injection Hrun as Hp <-.
  assert (HF : Forall fulfilled trace).
  { unfold promise_all in Hp.
    destruct (collect trace _) as [values|e] eqn:Hc; [|discriminate].
    eapply collect_resolved_fulfilled, Hc. }
  destruct (settle_order_complete (length (in_flight qs params))
              (completion_order
                 (env (dispatch_all c (in_flight qs params) w))
                 (length (in_flight qs params))))
    as [ND Hidx].
  unfold settle_in_flight in Hs.
  destruct (settle_all_indices _ _ _ _ _ _ (fun i Hi => proj1 (Hidx i) Hi) Hs)
    as [Htr _].
  destruct (promise_all_fulfilled (length (in_flight qs params)) trace HF)
    as (rs' & Hp' & Hl & _).
  { rewrite Htr. exact ND. }
  { intros i. rewrite Htr. apply Hidx. }
  rewrite Hp in Hp'. injection Hp' as <-.
  rewrite Hl. unfold in_flight. apply length_imap.
Qed.

(** The shape of what one run of the runner returns. *)
Lemma runner_shape client sql params options w out w' :
  runner client sql params options w = (Resolved out, w') ->
  match sql with
  | SqlOne _ => exists r, out = Single r
  | SqlMany qs => exists rs, out = Many rs /\ length rs = length qs
  end.
Proof.
  rewrite runner_rethrows. destruct client as [c|]; [|discriminate].
  destruct sql as [q|qs].
  - unfold bind. destruct (client_query c q params w) as [[r|e] w1];
      [|discriminate].
    intros [= <- <-]. eauto.
  - destruct (negb (isArray params) || _); [discriminate|].
    destruct (wants_parallel options); unfold bind.
    + destruct (parallel_run c qs params w) as [[rs|e] w1] eqn:Hp;
        [|discriminate].
      intros [= <- <-]. exists rs. split; [reflexivity|].
      eapply parallel_run_length, Hp.
    + destruct (seq_loop c qs 0 params [] w) as [[rs|e] w1] eqn:Hs;
        [|discriminate].
      intros [= <- <-]. exists rs. split; [reflexivity|].
      apply seq_loop_length in Hs. simpl in Hs. exact Hs.
Qed.

(** X5: what [executeDbQuery] resolves with has the shape of [sql]: a
    single result for a single statement, and for an array of statements
    an array with one result per statement; so [extractRows] gives the
    rows of the one result, or one array of rows per statement. *)
Theorem extract_rows_shape {Rows : Type} (rows : QueryResult -> Rows)
    client sql params options w out w' :
  executeDbQuery client sql params options w = (Resolved out, w') ->
  match sql with
  | SqlOne _ =>
      exists r, out = Single r
                /\ Exports.extractRows rows out = Exports.RowsOf (rows r)
  | SqlMany qs =>
      exists rs, out = Many rs
                 /\ length rs = length qs
                 /\ Exports.extractRows rows out
                    = Exports.RowsEach (map rows rs)
  end.
Proof.
  unfold executeDbQuery, Deadlock.manageDeadlocks. intros Hrun.
  apply attempt_resolved_inv in Hrun as [w0 Hrun].
  apply runner_shape in Hrun. destruct sql as [q|qs].
  - destruct Hrun as [r ->]. exists r. split; reflexivity.
  - destruct Hrun as (rs & -> & Hl). exists rs. repeat split; assumption.
Qed.

Lemma only_queries_refl c w : only_queries c w w.
Proof. exists []. rewrite app_nil_r. split; [reflexivity|constructor]. Qed.

Lemma only_queries_trans c w1 w2 w3 :
  only_queries c w1 w2 -> only_queries c w2 w3 -> only_queries c w1 w3.
Proof.
  intros (e1 & H1 & F1) (e2 & H2 & F2). exists (e1 ++ e2).
  rewrite H2, H1, app_assoc. split; [reflexivity|].
  apply Forall_app; split; assumption.
Qed.

Lemma only_queries_step c w evs w' :
  events w' = events w ++ map (query_event c) evs -> only_queries c w w'.
Proof.
  intros He. exists (map (query_event c) evs). split; [exact He|].
  apply Forall_forall. intros ev Hin.
  apply list_elem_of_fmap in Hin as ([q p] & -> & _). exists q, p. reflexivity.
Qed.

Lemma seq_loop_only_queries c params rest :
  forall i acc w r w',
    seq_loop c rest i params acc w = (r, w') -> only_queries c w w'.
Proof.
  induction rest as [|q rest IH]; intros i acc w r w' Hrun; simpl in Hrun.
  - injection Hrun as <- <-. apply only_queries_refl.
  - unfold bind in Hrun. rewrite client_query_run in Hrun.
    assert (Hstep : only_queries c w
              (mkWorld (snd (pg_query c q (js_index params i) (env w)))
                       (events w ++ [EvQuery c q (js_index params i)]))).
    { apply (only_queries_step c w [(q, js_index params i)]). reflexivity. }
    destruct (fst (pg_query c q (js_index params i) (env w))) as [r0|e].
    + eapply only_queries_trans; [exact Hstep|eapply IH, Hrun].
    + injection Hrun as <- <-. exact Hstep.
Qed.

Lemma runner_only_queries c sql params options w r w' :
  runner (Some c) sql params options w = (r, w') -> only_queries c w w'.
Proof.
  rewrite runner_rethrows. destruct sql as [q|qs].
  - unfold bind. rewrite client_query_run.
    intros Hrun. apply (only_queries_step c w [(q, params)]).
    destruct (fst (pg_query c q params (env w)));
      injection Hrun as <- <-; reflexivity.
  - destruct (negb (isArray params) || _).
    { intros [= <- <-]. apply only_queries_refl. }
    destruct (wants_parallel options); unfold bind.
    + unfold parallel_run.
      destruct (settle_in_flight c (in_flight qs params) w) as [trace w2] eqn:Hs.
      intros Hrun.
      assert (w' = w2) as ->.
      { destruct (promise_all _ trace); injection Hrun as <- <-; reflexivity. }
      unfold settle_in_flight in Hs. apply settle_all_events in Hs.
      rewrite dispatch_all_run in Hs. simpl in Hs.
      eapply only_queries_step, Hs.
    + destruct (seq_loop c qs 0 params [] w) as [[rs|e] w1] eqn:Hs;
        intros [= <- <-]; eapply seq_loop_only_queries, Hs.
Qed.

Lemma executeDbQuery_only_queries c sql params options w r w' :
  executeDbQuery (Some c) sql params options w = (r, w') ->
  only_queries c w w'.
Proof.
  unfold executeDbQuery, Deadlock.manageDeadlocks.
  apply attempt_preserves.
  - apply only_queries_trans.
  - intros s r0 s'. apply runner_only_queries.
Qed.

(** X6: whatever the request and however it ends, all [executeDbQuery]
    asks of the driver is to run statements on the client it was given:
    it never connects, releases or ends the pool. *)
Theorem executeDbQuery_never_releases c sql params options w :
  exists evs,
    events (snd (executeDbQuery (Some c) sql params options w))
      = events w ++ evs
    /\ Forall (query_to c) evs
    /\ (EvRelease c ∉ evs) /\ (EvConnect ∉ evs) /\ (EvEnd ∉ evs).
Proof.
  destruct (executeDbQuery (Some c) sql params options w) as [r w'] eqn:Hrun.
  apply executeDbQuery_only_queries in Hrun as (evs & He & HF).
  exists evs. split; [exact He|]. split; [exact HF|].
  rewrite Forall_forall in HF.
  repeat split; intros Hin; apply HF in Hin as (q & p & Heq); discriminate.
Qed.

End RunnerEdges.

(* ===================================================================== *)
(** ** Further properties of the transaction manager *)
(* ===================================================================== *)

Section ManagerInvariants.
Context `{Hlp : Helpers}.
Import Transactions.

Implicit Types (t : Tx) (w : World) (s : TxWorld) (k : Call)
  (calls : list Call).

Lemma default_params_idem params :
  default_params (default_params params) = default_params params.
Proof. destruct params; reflexivity. Qed.

Lemma after_calls_client s calls :
  client (fst (after_calls s calls)) = client (fst s).
Proof.
  unfold after_calls. revert s.
  induction calls as [|k calls IH]; intros s; simpl; [reflexivity|].
  rewrite IH. apply after_call_client.
Qed.

Lemma after_calls_app s calls1 calls2 :
  after_calls s (calls1 ++ calls2) = after_calls (after_calls s calls1) calls2.
Proof. unfold after_calls. apply fold_left_app. Qed.

(** [init], [commit] and [rollback] assign none of the variables. *)
Lemma control_call_keeps_manager t w k :
  is_query k = false -> fst (after_call (t, w) k) = t.
Proof.
  destruct k as [|sql params options| |]; intros Hk; try discriminate; simpl.
  - unfold init. unfold_monad. simpl.
    destruct (client t) as [c|]; simpl; [|reflexivity].
    rewrite command_run.
    destruct (fst (pg_query c "BEGIN" JUndefined (env w))); simpl;
      [reflexivity|]. destruct (is_db_or_tx e); reflexivity.
  - unfold commit. unfold_monad. simpl.
    destruct (client t) as [c|]; simpl.
    + rewrite command_run.
      destruct (fst (pg_query c "COMMIT" JUndefined (env w))); simpl;
        [reflexivity|]. destruct (negb _); reflexivity.
    + destruct (negb _); reflexivity.
  - unfold rollback. unfold_monad. simpl.
    destruct (client t) as [c|]; simpl; [|reflexivity].
    rewrite command_run. reflexivity.
Qed.

(** What a [query] call does to the state, by the outcome of
    [executeDbQuery]. *)
Lemma query_run t w sql params options :
  query sql params options (t, w) =
    match Query.executeDbQuery (client t) sql (default_params params)
            options w with
    | (Resolved out, w1) =>
        (Resolved out,
         (mkTx (client t)
               (Some (ref_uuid (fst (generateRefNo (env w1)))))
               (Some (ref_timestamp (fst (generateRefNo (env w1))))),
          mkWorld (snd (generateRefNo (env w1))) (events w1)))
    | (Rejected e, w1) =>
        (Rejected (if is_db_or_tx e
                   then TransactionError
                          ("Failed to initialize transaction: " ++ code_text e)
                          None
                   else e),
         (t, w1))
    end.
Proof.
  unfold query. unfold_monad. simpl.
  destruct (Query.executeDbQuery _ _ _ _ _) as [[out|e] w1]; simpl.
  - unfold systemGenerateReferenceNo.
    destruct (generateRefNo (env w1)); reflexivity.
  - destruct (is_db_or_tx e); reflexivity.
Qed.

Lemma runner_without_client sql params options w :
  Query.runner None sql params options w
    = (Rejected (DatabaseError no_client_message None), w).
Proof. rewrite runner_rethrows. reflexivity. Qed.

Lemma call_without_client t w k :
  client t = None -> after_call (t, w) k = (t, w).
Proof.
  intros Hc. destruct k as [|sql params options| |]; simpl.
  - unfold init. unfold_monad. simpl. rewrite Hc. reflexivity.
  - rewrite query_run, Hc.
    unfold Query.executeDbQuery, Deadlock.manageDeadlocks.
    rewrite (attempt_stuck _ _ _ _ (runner_without_client _ _ _ _)).
    reflexivity.
  - unfold commit. unfold_monad. simpl. rewrite Hc. simpl.
    destruct (negb _); reflexivity.
  - unfold rollback. unfold_monad. simpl. rewrite Hc. reflexivity.
Qed.

Lemma calls_without_client t w calls :
  client t = None -> after_calls (t, w) calls = (t, w).
Proof.
  intros Hc. unfold after_calls.
  induction calls as [|k calls IH]; simpl; [reflexivity|].
  rewrite (call_without_client _ _ _ Hc). exact IH.
Qed.

(** X7: a manager made without a client is inert: whatever is called on
    it, in whatever order, the world and the manager stay as they are;
    [query] rejects with a [TransactionError] and [retrieve] reports no
    connection and no reference. *)
Theorem manager_without_client_inert w calls :
  after_calls (initializeDbTransaction None, w) calls
    = (initializeDbTransaction None, w)
  /\ (forall sql params options,
        exists e,
          query sql params options (initializeDbTransaction None, w)
            = (Rejected e, (initializeDbTransaction None, w))
          /\ cls e = TransactionErrorC)
  /\ retrieve (initializeDbTransaction None)
     = {| connection := false; referenceNo := None; timestamp := None |}.
Proof.
  split; [apply calls_without_client; reflexivity|].
  split; [|reflexivity].
  intros sql params options. rewrite query_run. simpl.
  unfold Query.executeDbQuery, Deadlock.manageDeadlocks.
  rewrite (attempt_stuck _ _ _ _ (runner_without_client _ _ _ _)).
  eexists. split; reflexivity.
Qed.

(** X8: at any moment the reference number and the timestamp that
    [retrieve] returns are both unset, or are the two halves of one
    reference made by [generateRefNo]. *)
Theorem metadata_is_one_reference (c : option PoolClient) w calls :
  let md := retrieve (fst (after_calls (initializeDbTransaction c, w) calls)) in
  (referenceNo md = None /\ timestamp md = None)
  \/ exists en,
       referenceNo md = Some (ref_uuid (fst (generateRefNo en)))
       /\ timestamp md = Some (ref_timestamp (fst (generateRefNo en))).
Proof.
  set (Inv := fun t : Tx =>
    (uuid t = None /\ var_timestamp t = None)
    \/ exists en,
         uuid t = Some (ref_uuid (fst (generateRefNo en)))
         /\ var_timestamp t = Some (ref_timestamp (fst (generateRefNo en)))).
  assert (Hstep : forall s k, Inv (fst s) -> Inv (fst (after_call s k))).
  { intros [t w0] k Ht. destruct (is_query k) eqn:Hk.
    - destruct k as [|sql params options| |]; try discriminate. simpl.
      rewrite query_run.
      destruct (Query.executeDbQuery _ _ _ _ _) as [[out|e] w1]; simpl.
      + right. exists (env w1). split; reflexivity.
      + exact Ht.
    - rewrite control_call_keeps_manager by exact Hk. exact Ht. }
  assert (Hall : forall s, Inv (fst s) -> Inv (fst (after_calls s calls))).
  { unfold after_calls. induction calls as [|k calls IH]; intros s Hs;
      simpl; [exact Hs|]. apply IH, Hstep, Hs. }
  apply (Hall (initializeDbTransaction c, w)). left. split; reflexivity.
Qed.

(** X9: the manager keeps no state of the transaction: after any calls,
    with whatever outcomes, [init], [commit] and [rollback] each send
    their command to the client once more. *)
Theorem control_calls_always_send c w calls :
  let s := after_calls (initializeDbTransaction (Some c), w) calls in
  events (snd (snd (init s)))
    = events (snd s) ++ [EvQuery c "BEGIN" JUndefined]
  /\ events (snd (snd (commit s)))
     = events (snd s) ++ [EvQuery c "COMMIT" JUndefined]
  /\ events (snd (snd (rollback s)))
     = events (snd s) ++ [EvQuery c "ROLLBACK" JUndefined].
Proof.
  intros s.
  assert (Hc : client (fst s) = Some c).
  { unfold s. rewrite after_calls_client. reflexivity. }
  destruct s as [t w0]. simpl in Hc. simpl. repeat split.
  - unfold init. unfold_monad. simpl. rewrite Hc. simpl. rewrite command_run.
    destruct (fst (pg_query c "BEGIN" JUndefined (env w0))); simpl;
      [reflexivity|]. destruct (is_db_or_tx e); reflexivity.
  - unfold commit. unfold_monad. simpl. rewrite Hc. simpl. rewrite command_run.
    destruct (fst (pg_query c "COMMIT" JUndefined (env w0))); simpl;
      [reflexivity|]. destruct (negb _); reflexivity.
  - unfold rollback. unfold_monad. simpl. rewrite Hc. simpl.
    rewrite command_run. reflexivity.
Qed.

Lemma after_call_only_queries c t w k :
  client t = Some c -> only_queries c w (snd (after_call (t, w) k)).
Proof.
  intros Hc.
  assert (Hcmd : forall sql r w',
             command c sql w = (r, w') -> only_queries c w w').
  { intros sql r w'. rewrite command_run. intros [= <- <-].
    apply (only_queries_step c w [(sql, JUndefined)]). reflexivity. }
  destruct k as [|sql params options| |]; simpl.
  - unfold init. unfold_monad. simpl. rewrite Hc. simpl.
    destruct (command c "BEGIN" w) as [[u|e] w'] eqn:Hw; simpl;
      [|destruct (is_db_or_tx e)]; simpl; eapply Hcmd, Hw.
  - rewrite query_run, Hc.
    destruct (Query.executeDbQuery _ _ _ _ _) as [[out|e] w1] eqn:Hq;
      simpl; apply executeDbQuery_only_queries in Hq; exact Hq.
  - unfold commit. unfold_monad. simpl. rewrite Hc. simpl.
    destruct (command c "COMMIT" w) as [[u|e] w'] eqn:Hw; simpl;
      [|destruct (negb _)]; simpl; eapply Hcmd, Hw.
  - unfold rollback. unfold_monad. simpl. rewrite Hc. simpl.
    destruct (command c "ROLLBACK" w) as [r w'] eqn:Hw; simpl.
    eapply Hcmd, Hw.
Qed.

(** X10: all a manager ever asks of the driver is to run statements on
    the client it was given; no sequence of calls releases that client,
    takes another one from the pool or ends the pool. *)
Theorem manager_never_releases c w calls :
  exists evs,
    events (snd (after_calls (initializeDbTransaction (Some c), w) calls))
      = events w ++ evs
    /\ Forall (query_to c) evs
    /\ (EvRelease c ∉ evs) /\ (EvConnect ∉ evs) /\ (EvEnd ∉ evs).
Proof.
  assert (Hall : forall s,
             client (fst s) = Some c ->
             only_queries c (snd s) (snd (after_calls s calls))).
  { unfold after_calls. induction calls as [|k calls IH]; intros [t w0] Hc;
      simpl; [apply only_queries_refl|].
    eapply only_queries_trans; [apply (after_call_only_queries c t w0 k Hc)|].
    apply IH. rewrite after_call_client. exact Hc. }
  destruct (Hall (initializeDbTransaction (Some c), w) eq_refl)
    as (evs & He & HF).
  exists evs. split; [exact He|]. split; [exact HF|].
  rewrite Forall_forall in HF.
  repeat split; intros Hin; apply HF in Hin as (q & p & Heq); discriminate.
Qed.

(** X11: the whole life of a transaction with one statement.  When
    [BEGIN], the statement and [COMMIT] succeed, [init(); query(q);
    commit()] resolves, the client has been handed exactly [BEGIN], the
    statement and [COMMIT], in this order, and the manager holds the
    reference made after the statement. *)
Theorem transaction_happy_path c q params options w r0 e1 r e2 ref e3 r1 e4 :
  pg_query c "BEGIN" JUndefined (env w) = (Resolved r0, e1) ->
  pg_query c q (default_params params) e1 = (Resolved r, e2) ->
  generateRefNo e2 = (ref, e3) ->
  pg_query c "COMMIT" JUndefined e3 = (Resolved r1, e4) ->
  (init ;; query (SqlOne q) params options ;; commit)
    (initializeDbTransaction (Some c), w)
  = (Resolved tt,
     (mkTx (Some c) (Some (ref_uuid ref)) (Some (ref_timestamp ref)),
      mkWorld e4
        (events w ++ [EvQuery c "BEGIN" JUndefined;
                      EvQuery c q (default_params params);
                      EvQuery c "COMMIT" JUndefined]))).
Proof.
  intros Hb Hq Hr Hc.
  unfold bind at 1.
  assert (Hinit : init (initializeDbTransaction (Some c), w)
                  = (Resolved tt,
                     (initializeDbTransaction (Some c),
                      mkWorld e1 (events w ++ [EvQuery c "BEGIN" JUndefined])))).
  { unfold init. unfold_monad. simpl. rewrite command_run, Hb. reflexivity. }
  rewrite Hinit. unfold bind at 1. rewrite query_run. simpl.
  unfold Query.executeDbQuery, Deadlock.manageDeadlocks.
  rewrite default_params_idem.
  erewrite attempt_resolved; cycle 1.
  { rewrite runner_rethrows. unfold bind.
    rewrite client_query_run. simpl. rewrite Hq. reflexivity. }
  simpl. rewrite Hr. simpl.
  unfold commit. unfold_monad. simpl. rewrite command_run. simpl.
  rewrite Hc. simpl. rewrite <- !app_assoc. reflexivity.
Qed.

(** X12: a request with mismatched statements and parameters, made
    through [query] of a manager that has a client, is rejected with a
    [TransactionError] whose text is [Failed to initialize transaction: ]
    followed by the default code of [DatabaseError]; the message of the
    cause is not in it.  Nothing is asked of the client and the manager
    is as before. *)
Theorem query_mismatch_in_transaction t w c qs params options :
  client t = Some c ->
  isArray (default_params params) = false
  \/ length qs <> js_length (default_params params) ->
  query (SqlMany qs) params options (t, w)
  = (Rejected
       (mkJsError TransactionErrorC
          ("Failed to initialize transaction: " ++ db_default_code)
          (Some tx_default_code)),
     (t, w)).
Proof.
  intros Hc Hbad. rewrite query_run, Hc.
  assert (Hguard : negb (isArray (default_params params))
                   || negb (Nat.eqb (length qs)
                              (js_length (default_params params))) = true).
  { destruct Hbad as [Ha|Hl].
    - rewrite Ha. reflexivity.
    - apply Nat.eqb_neq in Hl. rewrite Hl. apply orb_true_r. }
  unfold Query.executeDbQuery, Deadlock.manageDeadlocks.
  rewrite default_params_idem.
  erewrite attempt_stuck; cycle 1.
  { rewrite runner_rethrows, Hguard. reflexivity. }
  reflexivity.
Qed.

End ManagerInvariants.

(* ===================================================================== *)
(** ** Further properties of the session *)
(* ===================================================================== *)

Section SessionLife.
Context `{Hlp : Helpers}.
Import Index.

Implicit Types (v : Session) (w : World) (c : PoolClient).

Lemma initializeConnection_run v w :
  initializeConnection (v, w) =
    (match fst (pool_connect (env w)) with
     | Resolved _ => Resolved tt
     | Rejected e =>
         Rejected (DatabaseError
                     ("Error initializing database. " ++ error_text e) None)
     end,
     (match fst (pool_connect (env w)) with
      | Resolved c => mkSession (Some c)
      | Rejected _ => v
      end,
      mkWorld (snd (pool_connect (env w))) (events w ++ [EvConnect]))).
Proof.
  unfold initializeConnection, connect. unfold_monad. simpl.
  destruct (pool_connect (env w)) as [[c|e] en]; reflexivity.
Qed.

Lemma releaseConnection_run v w c :
  client v = Some c ->
  releaseConnection (v, w) =
    (match fst (client_release c (env w)) with
     | Resolved _ => Resolved tt
     | Rejected e =>
         if code_is e "CONN_NOT_INIT" then Resolved tt
         else Rejected (DatabaseError (message e) (code e))
     end,
     (v, mkWorld (snd (client_release c (env w))) (events w ++ [EvRelease c]))).
Proof.
  intros Hc. unfold releaseConnection, release. unfold_monad. simpl.
  rewrite Hc. simpl.
  destruct (client_release c (env w)) as [[[]|e] en]; simpl; [reflexivity|].
  destruct (code_is e "CONN_NOT_INIT"); reflexivity.
Qed.

Lemma session_query_run v w sql params options :
  query sql params options (v, w) =
    (fst (Query.executeDbQuery (client v) (SqlOne sql)
            (default_params params) options w),
     (v, snd (Query.executeDbQuery (client v) (SqlOne sql)
                (default_params params) options w))).
Proof.
  unfold query. unfold_monad. simpl.
  destruct (Query.executeDbQuery _ _ _ _ _); reflexivity.
Qed.

(** X13: the life of a session.  When the pool hands out a client, the
    statement succeeds and the release succeeds,
    [initializeConnection(); query(q); releaseConnection()] resolves, and
    the driver was asked to connect, to run the statement on that client
    and to release that client, in this order. *)
Theorem session_happy_path q params options w c e1 r e2 e3 :
  pool_connect (env w) = (Resolved c, e1) ->
  pg_query c q (default_params params) e1 = (Resolved r, e2) ->
  client_release c e2 = (Resolved tt, e3) ->
  (initializeConnection ;; query q params options ;; releaseConnection)
    (initializeDatabase, w)
  = (Resolved tt,
     (mkSession (Some c),
      mkWorld e3 (events w ++ [EvConnect;
                               EvQuery c q (default_params params);
                               EvRelease c]))).
Proof.
  intros Hp Hq Hr.
  unfold bind at 1. rewrite initializeConnection_run, Hp. simpl.
  unfold bind at 1. rewrite session_query_run. simpl.
  unfold Query.executeDbQuery, Deadlock.manageDeadlocks.
  rewrite default_params_idem.
  erewrite attempt_resolved; cycle 1.
  { rewrite runner_rethrows. unfold bind.
    rewrite client_query_run. simpl. rewrite Hq. reflexivity. }
  simpl. rewrite releaseConnection_run with (c := c) by reflexivity. simpl.
  rewrite Hr. simpl. rewrite <- !app_assoc. reflexivity.
Qed.

(** X14: [initializeConnection] on a session that holds a client takes
    another client from the pool and forgets the first without releasing
    it: after two successful calls, [releaseConnection] releases the
    second client, and no release of the first was asked for. *)
Theorem reconnect_forgets_first_client w c1 e1 c2 e2 :
  pool_connect (env w) = (Resolved c1, e1) ->
  pool_connect e1 = (Resolved c2, e2) ->
  let s := snd ((initializeConnection ;; initializeConnection ;;
                 releaseConnection) (initializeDatabase, w)) in
  client (fst s) = Some c2
  /\ events (snd s) = events w ++ [EvConnect; EvConnect; EvRelease c2].
Proof.
  intros H1 H2 s.
  assert (Hs : s = (mkSession (Some c2),
                    mkWorld (snd (client_release c2 e2))
                      (events w ++ [EvConnect; EvConnect; EvRelease c2]))).
  { unfold s.
    unfold bind at 1. rewrite initializeConnection_run, H1. simpl.
    unfold bind at 1. rewrite initializeConnection_run. simpl.
    rewrite H2. simpl.
    rewrite releaseConnection_run with (c := c2) by reflexivity. simpl.
    rewrite <- ?app_assoc. reflexivity. }
  rewrite Hs. split; reflexivity.
Qed.

(** X15: [releaseConnection] does not forget the client it released: the
    session is as before, so a later [query] still hands its statement to
    that client, and a second [releaseConnection] releases the same
    client again. *)
Theorem release_keeps_handle v w :
  fst (snd (releaseConnection (v, w))) = v
  /\ forall c,
       client v = Some c ->
       events (snd (snd (releaseConnection (snd (releaseConnection (v, w))))))
         = events w ++ [EvRelease c; EvRelease c].
Proof.
  split.
  - destruct (client v) as [c|] eqn:Hc.
    + rewrite (releaseConnection_run _ _ c Hc). reflexivity.
    + rewrite release_without_client_cases by exact Hc. reflexivity.
  - intros c Hc. rewrite (releaseConnection_run _ _ c Hc). simpl.
    rewrite (releaseConnection_run _ _ c Hc). simpl.
    rewrite <- app_assoc. reflexivity.
Qed.

(** X16: a failure of [client.release()] leaves [releaseConnection] as a
    [DatabaseError] with the message and the code of the cause (the
    default code when the cause has none), unless the code of the cause
    is [CONN_NOT_INIT]: then the failure is swallowed. *)
Theorem release_failure v w c e en :
  client v = Some c ->
  client_release c (env w) = (Rejected e, en) ->
  fst (releaseConnection (v, w)) =
    if code_is e "CONN_NOT_INIT" then Resolved tt
    else Rejected (mkJsError DatabaseErrorC (message e)
                     (Some (default db_default_code (code e)))).
Proof.
  intros Hc Hr. rewrite (releaseConnection_run _ _ c Hc), Hr. simpl.
  destruct (code_is e "CONN_NOT_INIT"); reflexivity.
Qed.

(** X17: when the pool has no client to give, [initializeConnection]
    rejects with a [DatabaseError] whose text ends in the text of the
    cause, the session still holds no client, and a [query] on it is
    rejected with the no-connection error without reaching the driver. *)
Theorem failed_connect w e en sql params options :
  pool_connect (env w) = (Rejected e, en) ->
  let r := initializeConnection (initializeDatabase, w) in
  fst r = Rejected (mkJsError DatabaseErrorC
                      ("Error initializing database. " ++ error_text e)
                      (Some db_default_code))
  /\ client (fst (snd r)) = None
  /\ query sql params options (snd r)
     = (Rejected (DatabaseError no_client_message None), snd r).
Proof.
  intros Hp r. unfold r. rewrite initializeConnection_run, Hp. simpl.
  split; [reflexivity|]. split; [reflexivity|].
  rewrite session_query_run. simpl.
  unfold Query.executeDbQuery, Deadlock.manageDeadlocks.
  rewrite (attempt_stuck _ _ _ _ (runner_without_client _ _ _ _)).
  reflexivity.
Qed.

(** X18: [terminate] ends the pool and nothing else: the client of the
    session is neither released nor forgotten.  A failure of [pool.end()]
    leaves as a [DatabaseError] whose text carries the code of the cause. *)
Theorem terminate_outcome v w :
  terminate (v, w) =
    (match fst (pool_end (env w)) with
     | Resolved _ => Resolved tt
     | Rejected e =>
         Rejected (mkJsError DatabaseErrorC
                     ("Failed to terminate database connection pool: "
                      ++ code_text e)
                     (Some db_default_code))
     end,
     (v, mkWorld (snd (pool_end (env w))) (events w ++ [EvEnd]))).
Proof.
  unfold terminate, end_pool. unfold_monad. simpl.
  destruct (pool_end (env w)) as [[[]|e] en]; reflexivity.
Qed.

(** X19: a manager belongs to the client the session held when
    [transaction()] was called.  Asked of a session that has not
    connected, [transaction()] returns a manager without a client, and
    that manager stays inert in every later world, also after the
    session has connected. *)
Theorem transaction_before_connect w :
  exists m,
    transaction (initializeDatabase, w) = (Resolved m, (initializeDatabase, w))
    /\ Transactions.connection (Transactions.retrieve m) = false
    /\ forall w' calls, after_calls (m, w') calls = (m, w').
Proof.
  exists (Transactions.initializeDbTransaction None).
  split; [reflexivity|]. split; [reflexivity|].
  intros w' calls. apply calls_without_client. reflexivity.
Qed.

End SessionLife.

(* ===================================================================== *)
(** ** Properties of the middleware and of [getPostgres] *)
(* ===================================================================== *)

Section MiddlewareFacts.
Context `{Hlp : Helpers}.
Import Exports.

Implicit Types (x : Exchange) (w : World) (obj : JsObject)
  (next : M (Exchange * World) unit).

(** The exchange as the rest of the chain receives it. *)
Lemma middleware_run dbName flag next x w :
  TralsePostgreSQL dbName flag next (x, w) =
    match next (mkExchange
                  (mkRequest
                     (Some (write (default empty_object
                                     (tralse_db_postgres (req x)))
                              dbName
                              (initializeDatabase (default true flag)))))
                  (sent x), w) with
    | (Resolved a, s') => (Resolved a, s')
    | (Rejected e, s') => respond init_failed s'
    end.
Proof.
  unfold TralsePostgreSQL. unfold_monad. simpl.
  destruct (next _) as [[a|e] s']; reflexivity.
Qed.

Lemma read_write_same obj name i : read (write obj name i) name = MInstance i.
Proof.
  unfold read, write. destruct (decide (name = "__proto__")) as [->|Hne]; simpl.
  - reflexivity.
  - rewrite lookup_insert_eq. reflexivity.
Qed.

Lemma read_write_other obj name i other :
  name <> "__proto__" -> other <> name ->
  read (write obj name i) other = read obj other.
Proof.
  intros Hn Ho. unfold read, write.
  destruct (decide (name = "__proto__")); [contradiction|]. simpl.
  rewrite lookup_insert_ne by congruence. reflexivity.
Qed.

(** X20: whatever the request carried before, the rest of the chain runs
    once, in a world the middleware has not touched, on a request from
    which [getPostgres] returns, under the name the middleware was given,
    a new instance that holds no client and has the [transaction] member
    unless transactions were switched off. *)
Theorem mount_then_get dbName flag x w :
  exists x1,
    (forall next,
        TralsePostgreSQL dbName flag next (x, w) =
          match next (x1, w) with
          | (Resolved a, s') => (Resolved a, s')
          | (Rejected e, s') => respond init_failed s'
          end)
    /\ sent x1 = sent x
    /\ getPostgres (req x1) dbName
       = Resolved (MInstance (mkInstance (Index.mkSession None)
                                (default true flag))).
Proof.
  eexists. split; [intros next; apply middleware_run|].
  split; [reflexivity|].
  unfold getPostgres. simpl. rewrite read_write_same. reflexivity.
Qed.

(** X21: what the middleware makes of a throw of the rest of the chain.
    When no response has gone out on the request, the error is dropped,
    the single response [500 DATABASE_INIT_ERROR] is sent, the middleware
    resolves and the instance stays on the request.  When a response has
    gone out already, no second one is sent and the middleware rejects
    with the error of the [http] module.  It rejects in no other way. *)
Theorem mount_swallows_errors dbName flag x w :
  (forall next e',
      fst (TralsePostgreSQL dbName flag next (x, w)) = Rejected e' ->
      e' = headers_sent
      /\ sent (fst (snd (TralsePostgreSQL dbName flag next (x, w)))) <> [])
  /\ (sent x = [] ->
      forall e,
        let r := TralsePostgreSQL dbName flag (throw e) (x, w) in
        fst r = Resolved tt
        /\ sent (fst (snd r)) = [init_failed]
        /\ snd (snd r) = w
        /\ getPostgres (req (fst (snd r))) dbName
           = Resolved (MInstance (initializeDatabase (default true flag))))
  /\ (sent x <> [] ->
      forall e,
        let r := TralsePostgreSQL dbName flag (throw e) (x, w) in
        fst r = Rejected headers_sent
        /\ sent (fst (snd r)) = sent x
        /\ snd (snd r) = w).
Proof.
  split; [|split].
  - intros next e'. rewrite middleware_run.
    destruct (next _) as [[[]|e] [x2 w2]]; [discriminate|].
    unfold respond. simpl. destruct (sent x2) as [|r0 rest] eqn:Hs; simpl.
    + discriminate.
    + intros [= <-]. split; [reflexivity|]. rewrite Hs. discriminate.
  - intros Hx e r. unfold r. rewrite middleware_run.
    unfold throw, respond. simpl. rewrite Hx. simpl.
    split; [reflexivity|]. split; [reflexivity|]. split; [reflexivity|].
    unfold getPostgres. simpl. rewrite read_write_same. reflexivity.
  - intros Hx e r. unfold r. rewrite middleware_run.
    unfold throw, respond. simpl.
    destruct (sent x) as [|r0 rest]; [contradiction|]. simpl.
    split; [reflexivity|]. split; reflexivity.
Qed.

(** X22: on a request that no middleware has touched, after one mount
    under a name other than [__proto__], [getPostgres] returns the new
    instance for that name, a member of [Object.prototype] that is not an
    instance for the names every object inherits, and rejects every other
    name with the [DatabaseError] that quotes the name. *)
Theorem get_after_first_mount dbName flag x w name :
  tralse_db_postgres (req x) = None ->
  dbName <> "__proto__" ->
  getPostgres (req (fst (snd (TralsePostgreSQL dbName flag (ret tt) (x, w)))))
    name
  = if decide (name = dbName)
    then Resolved (MInstance (initializeDatabase (default true flag)))
    else if bool_decide (name ∈ object_prototype)
    then Resolved MInherited
    else Rejected (DatabaseError
                     ("Cannot find a database named " ++ name ++ ".") None).
Proof.
  intros Hx Hd. rewrite middleware_run. unfold ret. simpl. rewrite Hx. simpl.
  unfold getPostgres. simpl.
  destruct (decide (name = dbName)) as [->|Hne].
  - rewrite read_write_same. reflexivity.
  - rewrite read_write_other by assumption.
    unfold read, empty_object. simpl.
    destruct (decide (name = "__proto__")) as [->|Hp]; [reflexivity|].
    rewrite lookup_empty. simpl.
    destruct (bool_decide (name ∈ object_prototype)); reflexivity.
Qed.

(** X23: a mount under a name other than [__proto__] changes what
    [getPostgres] returns for that name only: the instances mounted
    before under other names are still there. *)
Theorem mount_keeps_other_names dbName flag x w obj other :
  tralse_db_postgres (req x) = Some obj ->
  dbName <> "__proto__" ->
  other <> dbName ->
  getPostgres (req (fst (snd (TralsePostgreSQL dbName flag (ret tt) (x, w)))))
    other
  = getPostgres (req x) other.
Proof.
  intros Hx Hd Ho. rewrite middleware_run. unfold ret. simpl.
  unfold getPostgres. simpl. rewrite Hx. simpl.
  rewrite read_write_other by assumption. reflexivity.
Qed.

(** X24: [getPostgres] on a request that went through no middleware does
    not reject with a [DatabaseError]: reading a member of [undefined]
    throws an error of the engine. *)
Theorem get_without_mount r name :
  tralse_db_postgres r = None ->
  exists e, getPostgres r name = Rejected e /\ cls e = ForeignC.
Proof.
  intros Hr. unfold getPostgres. rewrite Hr. eexists. split; reflexivity.
Qed.

End MiddlewareFacts.

(* ===================================================================== *)
(** ** Further worked examples *)
(* ===================================================================== *)

Section MoreExamples.
Import Demo.


Lemma empty_request_witness :
  @Query.executeDbQuery (driver healthy) (helpers healthy) (Some 0)
    (SqlMany []) JUndefined (Some {| parallel := true |}) (world0 healthy)
  = (Resolved (Many []), world0 healthy).
Proof.
  apply (@empty_request (driver healthy) (helpers healthy) 0 JUndefined
           (Some {| parallel := true |}) (world0 healthy)).
  reflexivity.
Defined.

Lemma parallel_failure_witness :
  @Query.runner (driver failing) (helpers failing) (Some 0)
    (SqlMany ["A"; "BAD"; "C"]) (JArr [JArr []; JArr []; JArr []])
    (Some {| parallel := true |}) (world0 failing)
  = (Rejected unique_violation,
     @mkWorld (driver failing) ["C"; "A"]
       [EvQuery (0 : @PoolClient (driver failing)) "A" (JArr []);
        EvQuery (0 : @PoolClient (driver failing)) "BAD" (JArr []);
        EvQuery (0 : @PoolClient (driver failing)) "C" (JArr [])]).
Proof.
  assert (Hrun :
    @Query.settle_in_flight (driver failing) 0
      (zip ["A"; "BAD"; "C"] [JArr []; JArr []; JArr []]) (world0 failing)
    = ([(2, Resolved "rows of C"); (1, Rejected unique_violation);
        (0, Resolved "rows of A")],
       @mkWorld (driver failing) ["C"; "A"]
         [EvQuery (0 : @PoolClient (driver failing)) "A" (JArr []);
          EvQuery (0 : @PoolClient (driver failing)) "BAD" (JArr []);
          EvQuery (0 : @PoolClient (driver failing)) "C" (JArr [])])).
  { vm_compute. reflexivity. }
  destruct (@parallel_failure (driver failing) (helpers failing) 0
              ["A"; "BAD"; "C"] [JArr []; JArr []; JArr []]
              (Some {| parallel := true |}) (world0 failing) _ _
              eq_refl eq_refl Hrun) as (_ & _ & Hfirst).
  apply Hfirst. reflexivity.
Defined.

Lemma extract_rows_shape_witness :
  exists rs : list string,
    @Many (driver healthy) ["rows of A"; "rows of B"] = @Many (driver healthy) rs
    /\ length rs = 2
    /\ @Exports.extractRows (driver healthy) string (fun r => r)
         (@Many (driver healthy) ["rows of A"; "rows of B"])
       = Exports.RowsEach (map (fun r => r) rs).
Proof.
  assert (Hrun :
    @Query.executeDbQuery (driver healthy) (helpers healthy) (Some 0)
      (SqlMany ["A"; "B"]) (JArr [JArr []; JArr []]) None (world0 healthy)
    = (Resolved (@Many (driver healthy) ["rows of A"; "rows of B"]),
       @mkWorld (driver healthy) ["A"; "B"]
         [EvQuery (0 : @PoolClient (driver healthy)) "A" (JArr []);
          EvQuery (0 : @PoolClient (driver healthy)) "B" (JArr [])])).
  { vm_compute. reflexivity. }
  exact (@extract_rows_shape (driver healthy) (helpers healthy) string
           (fun r => r) _ _ _ _ _ _ _ Hrun).
Defined.

Lemma transaction_happy_path_witness :
  one_statement_transaction
  = (Resolved tt,
     (@Transactions.mkTx (driver healthy) (Some 0)
        (Some "ref after BEGIN; S1") (Some "time after BEGIN; S1"),
      @mkWorld (driver healthy) ["BEGIN"; "S1"; "COMMIT"]
        [EvQuery (0 : @PoolClient (driver healthy)) "BEGIN" JUndefined;
         EvQuery (0 : @PoolClient (driver healthy)) "S1" (JArr []);
         EvQuery (0 : @PoolClient (driver healthy)) "COMMIT" JUndefined])).
Proof.
  apply (@transaction_happy_path (driver healthy) (helpers healthy) 0
           "S1" JUndefined None (world0 healthy)
           "rows of BEGIN" ["BEGIN"]
           "rows of S1" ["BEGIN"; "S1"]
           {| ref_uuid := "ref after BEGIN; S1";
              ref_timestamp := "time after BEGIN; S1" |}
           ["BEGIN"; "S1"]
           "rows of COMMIT" ["BEGIN"; "S1"; "COMMIT"]);
    vm_compute; reflexivity.
Defined.

Lemma query_mismatch_witness :
  @Transactions.query (driver healthy) (helpers healthy)
    (SqlMany ["A"; "B"]) (JArr [JArr []]) None
    (manager healthy (Some 0), world0 healthy)
  = (Rejected (mkJsError TransactionErrorC
                 "Failed to initialize transaction: DB_ERR"
                 (Some "TRANSACTION_ERR")),
     (manager healthy (Some 0), world0 healthy)).
Proof.
  apply (@query_mismatch_in_transaction (driver healthy) (helpers healthy)
           (manager healthy (Some 0)) (world0 healthy) 0
           ["A"; "B"] (JArr [JArr []]) None).
  - reflexivity.
  - right. simpl. lia.
Defined.

Lemma session_happy_path_witness :
  session_life
  = (Resolved tt,
     (@Index.mkSession (pool 1) (Some 0),
      @mkWorld (pool 1) (1, @nil nat)
        [EvConnect;
         EvQuery (0 : @PoolClient (pool 1)) "A" (JArr []);
         EvRelease (0 : @PoolClient (pool 1))])).
Proof.
  apply (@session_happy_path (pool 1) (pool_helpers 1) "A" JUndefined None
           (pool_world 1) 0 (1, [0]) "rows of A" (1, [0]) (1, @nil nat));
    vm_compute; reflexivity.
Defined.

Lemma reconnect_witness :
  @Index.client (pool 2) (fst (snd connect_twice)) = Some 1
  /\ events (snd (snd connect_twice))
     = [EvConnect; EvConnect; EvRelease (1 : @PoolClient (pool 2))].
Proof.
  apply (@reconnect_forgets_first_client (pool 2) (pool_helpers 2)
           (pool_world 2) 0 (1, [0]) 1 (2, [1; 0]));
    vm_compute; reflexivity.
Defined.

Lemma release_keeps_handle_witness :
  events (snd (snd (@Index.releaseConnection (pool 1) (pool_helpers 1)
                      (snd (@Index.releaseConnection (pool 1)
                              (pool_helpers 1) connected)))))
  = [EvRelease (0 : @PoolClient (pool 1));
     EvRelease (0 : @PoolClient (pool 1))].
Proof.
  apply (proj2 (@release_keeps_handle (pool 1) (pool_helpers 1)
                  (fst connected) (snd connected)) 0).
  reflexivity.
Defined.

Lemma release_failure_witness :
  fst (@Index.releaseConnection (pool 1) (pool_helpers 1) released)
  = Rejected (mkJsError DatabaseErrorC
                "Release called on client which has already been released to the pool."
                (Some "DB_ERR")).
Proof.
  apply (@release_failure (pool 1) (pool_helpers 1)
           (fst released) (snd released) 0 released_twice (1, @nil nat));
    reflexivity.
Defined.

Lemma failed_connect_witness :
  let r := @Index.initializeConnection (pool 0) (pool_helpers 0)
             (@Index.initializeDatabase (pool 0), pool_world 0) in
  fst r = Rejected (mkJsError DatabaseErrorC
                      "Error initializing database. Error: timeout exceeded when trying to connect"
                      (Some "DB_ERR"))
  /\ @Index.client (pool 0) (fst (snd r)) = None
  /\ @Index.query (pool 0) (pool_helpers 0) "A" JUndefined None (snd r)
     = (Rejected (@DatabaseError (pool 0) (pool_helpers 0)
                    no_client_message None), snd r).
Proof.
  apply (@failed_connect (pool 0) (pool_helpers 0) (pool_world 0)
           pool_exhausted (0, @nil nat) "A" JUndefined None).
  reflexivity.
Defined.

Lemma mount_swallows_errors_witness :
  (let r := @Exports.TralsePostgreSQL (driver healthy) "main" None
              (throw unique_violation)
              (bare_exchange healthy, world0 healthy) in
   fst r = Resolved tt
   /\ Exports.sent (fst (snd r)) = [Exports.init_failed])
  /\ (let r := @Exports.TralsePostgreSQL (driver healthy) "main" None
                 (throw unique_violation)
                 (answered_exchange healthy, world0 healthy) in
      fst r = Rejected Exports.headers_sent
      /\ Exports.sent (fst (snd r)) = [answered]).
Proof.
  destruct (@mount_swallows_errors (driver healthy) (helpers healthy)
              "main" None (bare_exchange healthy) (world0 healthy))
    as (_ & Hfirst & _).
  destruct (@mount_swallows_errors (driver healthy) (helpers healthy)
              "main" None (answered_exchange healthy) (world0 healthy))
    as (_ & _ & Hlater).
  split.
  - destruct (Hfirst eq_refl unique_violation) as (H1 & H2 & _).
    split; [exact H1|exact H2].
  - assert (Hsent : Exports.sent (answered_exchange healthy) <> [])
      by discriminate.
    destruct (Hlater Hsent unique_violation) as (H1 & H2 & _).
    split; [exact H1|exact H2].
Defined.

Lemma get_after_first_mount_witness :
  @Exports.getPostgres (driver healthy) (helpers healthy)
    (Exports.req mounted_main) "main"
  = Resolved (Exports.MInstance
                (@Exports.mkInstance (driver healthy)
                   (@Index.mkSession (driver healthy) None) true))
  /\ @Exports.getPostgres (driver healthy) (helpers healthy)
       (Exports.req mounted_main) "toString"
     = Resolved Exports.MInherited
  /\ @Exports.getPostgres (driver healthy) (helpers healthy)
       (Exports.req mounted_main) "replica"
     = Rejected (mkJsError DatabaseErrorC
                   "Cannot find a database named replica." (Some "DB_ERR")).
Proof.
  assert (Hbare : Exports.tralse_db_postgres
                    (Exports.req (bare_exchange healthy)) = None)
    by reflexivity.
  assert (Hname : "main" <> "__proto__") by discriminate.
  split; [|split].
  - etransitivity;
      [exact (@get_after_first_mount (driver healthy) (helpers healthy)
                "main" None (bare_exchange healthy) (world0 healthy)
                "main" Hbare Hname)
      |vm_compute; reflexivity].
  - etransitivity;
      [exact (@get_after_first_mount (driver healthy) (helpers healthy)
                "main" None (bare_exchange healthy) (world0 healthy)
                "toString" Hbare Hname)
      |vm_compute; reflexivity].
  - etransitivity;
      [exact (@get_after_first_mount (driver healthy) (helpers healthy)
                "main" None (bare_exchange healthy) (world0 healthy)
                "replica" Hbare Hname)
      |vm_compute; reflexivity].
Defined.

Lemma mount_keeps_other_names_witness :
  @Exports.getPostgres (driver healthy) (helpers healthy)
    (Exports.req
       (fst (snd (@Exports.TralsePostgreSQL (driver healthy) "replica"
                    (Some false) (ret tt) (mounted_main, world0 healthy)))))
    "main"
  = Resolved (Exports.MInstance
                (@Exports.mkInstance (driver healthy)
                   (@Index.mkSession (driver healthy) None) true)).
Proof.
  assert (Hobj : Exports.tralse_db_postgres (Exports.req mounted_main)
                 = Some (@Exports.write (driver healthy)
                           (@Exports.empty_object (driver healthy)) "main"
                           (@Exports.initializeDatabase (driver healthy) true)))
    by reflexivity.
  etransitivity;
    [apply (@mount_keeps_other_names (driver healthy) (helpers healthy)
              "replica" (Some false) mounted_main (world0 healthy) _ "main"
              Hobj); discriminate
    |vm_compute; reflexivity].
Defined.

Lemma get_without_mount_witness :
  exists e,
    @Exports.getPostgres (driver healthy) (helpers healthy)
      (Exports.req (bare_exchange healthy)) "main" = Rejected e
    /\ cls e = ForeignC.
Proof.
  apply (@get_without_mount (driver healthy) (helpers healthy)
           (Exports.req (bare_exchange healthy)) "main").
  reflexivity.
Defined.

End MoreExamples.
